(** * Dungeon battle simulator: the combat core of [dungeon_sim.py]

    A shallow embedding of the classes [Hero], [Enemy] and [BattleSimulator]
    and of [validate_arguments], followed by the properties of the
    specification that concern them.

    Python integers are unbounded and are modelled by [Z]; Python floats are
    IEEE 754 binary64 values and are modelled by Rocq's primitive floats,
    which are the same format with the same round-to-nearest-even
    operations.  Exceptions are values of [PyError] carried by [Outcome].
    The process-wide generator of the [random] module is an explicit stream
    of raw draws that every call consumes in program order. *)

From Stdlib Require Import ZArith NArith QArith Qminmax Qabs List String Bool Lia.
From Stdlib Require Import Sorted Permutation.
From Stdlib Require Import Uint63 PrimFloat FloatOps SpecFloat.
Import ListNotations.

Set Warnings "-inexact-float".

Open Scope string_scope.
Open Scope list_scope.
Open Scope Z_scope.

(** ** Exceptions and results *)

(** The text of a [ValueError] raised by this program.  The first three are
    the f-strings of [validate_arguments]; the last is the message of
    [int(float('nan'))]. *)
Inductive ValueMessage : Type :=
| LevelMustBeBetween (got : Z)
| HeroClassMustBeOneOf (got : string)
| BattleDateMustBeInFormat (got : string)
| CannotConvertNaN.

Inductive PyError : Type :=
| KeyError (key : string)
| OverflowError
| ValueError (msg : ValueMessage).

(** [Done a] is a normal return, [Raised e] an exception that propagates.
    [OutOfFuel] is not a behaviour of the program: it is what the bounded
    unfolding of the [while] loop answers when the bound given to it was too
    small. *)
Inductive Outcome (A : Type) : Type :=
| Done (a : A)
| Raised (e : PyError)
| OutOfFuel.

Arguments Done {A} a.
Arguments Raised {A} e.
Arguments OutOfFuel {A}.

Definition bind {A B : Type} (c : Outcome A) (k : A -> Outcome B) : Outcome B :=
  match c with
  | Done a => k a
  | Raised e => Raised e
  | OutOfFuel => OutOfFuel
  end.

Notation "x <- c ;; k" := (bind c (fun x => k))
  (at level 61, c at next level, right associativity).
Notation "' p <- c ;; k" := (bind c (fun x => let p := x in k))
  (at level 61, p pattern, c at next level, right associativity).

(** ** Floats *)

(** [float(n)] for a Python integer: the nearest binary64 value, ties to
    even, and [OverflowError] when that would be infinite. *)
Definition float_of_int (n : Z) : Outcome float :=
  let f := SF2Prim (binary_normalize prec emax n 0 false) in
  if PrimFloat.is_infinity f then Raised OverflowError else Done f.

(** [int(x)] for a Python float: truncation towards zero. *)
Definition int_of_float (x : float) : Outcome Z :=
  match Prim2SF x with
  | S754_zero _ => Done 0
  | S754_infinity _ => Raised OverflowError
  | S754_nan => Raised (ValueError CannotConvertNaN)
  | S754_finite s m e =>
      let magnitude :=
        match e with
        | Z0 => Zpos m
        | Zpos p => Z.shiftl (Zpos m) (Zpos p)
        | Zneg p => Z.shiftr (Zpos m) (Zpos p)
        end in
      Done (if s then - magnitude else magnitude)
  end.

(** [n * x] with [n] an integer and [x] a float: [n] is converted first. *)
Definition int_mul_float (n : Z) (x : float) : Outcome float :=
  f <- float_of_int n ;;
  Done (PrimFloat.mul f x).

(** [min(x, y)] on floats: the first argument unless the second is smaller. *)
Definition float_min (x y : float) : float :=
  if PrimFloat.ltb y x then y else x.

(** ** The random source *)

(** The state of the generator: the raw draws still to come. *)
Definition RandomSource : Type := nat -> N.

Definition next_draw (rng : RandomSource) : N * RandomSource :=
  (rng O, fun i => rng (S i)).

(** [random.random()]: a multiple of 2^-53 in [0, 1). *)
Definition random_random (rng : RandomSource) : float * RandomSource :=
  let '(raw, rng') := next_draw rng in
  (SF2Prim (binary_normalize prec emax (Z.of_N raw mod 2 ^ 53) (-53) false), rng').

(** [random.randint(a, b)] for [a <= b]: an integer of [a..b], both ends
    included. *)
Definition random_randint (a b : Z) (rng : RandomSource) : Z * RandomSource :=
  let '(raw, rng') := next_draw rng in
  (a + Z.of_N raw mod (b - a + 1), rng').

(** [random.choice(seq)] for a non-empty list of strings. *)
Definition random_choice (seq : list string) (rng : RandomSource)
  : string * RandomSource :=
  let '(raw, rng') := next_draw rng in
  (nth (N.to_nat raw mod List.length seq)%nat seq "", rng').

(** ** Dictionaries *)

(** A dict literal with string keys; [d[k]] raises [KeyError] when [k] is
    not a key. *)
Fixpoint dict_get {A : Type} (d : list (string * A)) (k : string) : Outcome A :=
  match d with
  | [] => Raised (KeyError k)
  | (k', v) :: d' => if String.eqb k' k then Done v else dict_get d' k
  end.

(** ** class Hero *)

Module Hero.

Definition VALID_CLASSES : list string := ["Warrior"; "Mage"; "Rogue"].

Record t : Type := mk {
  name : string;
  hero_class : string;
  level : Z;
  hardcore_mode : bool;
  max_hp : Z;
  current_hp : Z;
  attack : Z;
  defense : Z;
  critical_chance : float
}.

Definition base_hp : list (string * Z) :=
  [("Warrior", 150); ("Mage", 100); ("Rogue", 120)].

Definition base_attack : list (string * Z) :=
  [("Warrior", 25); ("Mage", 35); ("Rogue", 30)].

Definition base_defense : list (string * Z) :=
  [("Warrior", 20); ("Mage", 10); ("Rogue", 15)].

Definition base_crit : list (string * float) :=
  [("Warrior", 0.15%float); ("Mage", 0.25%float); ("Rogue", 0.35%float)].

Definition _calculate_max_hp (cls : string) (lvl : Z) : Outcome Z :=
  b <- dict_get base_hp cls ;;
  Done (b + lvl * 10).

Definition _calculate_attack (cls : string) (lvl : Z) : Outcome Z :=
  b <- dict_get base_attack cls ;;
  Done (b + lvl * 2).

Definition _calculate_defense (cls : string) (lvl : Z) : Outcome Z :=
  b <- dict_get base_defense cls ;;
  Done (b + lvl * 1).

Definition _calculate_critical_chance (cls : string) (lvl : Z) : Outcome float :=
  b <- dict_get base_crit cls ;;
  p <- int_mul_float lvl 0.002%float ;;
  Done (float_min (PrimFloat.add b p) 0.75%float).

(** [Hero.__init__]. *)
Definition init (nm cls : string) (lvl : Z) (hardcore : bool) : Outcome t :=
  hp <- _calculate_max_hp cls lvl ;;
  atk <- _calculate_attack cls lvl ;;
  def <- _calculate_defense cls lvl ;;
  crit <- _calculate_critical_chance cls lvl ;;
  Done (mk nm cls lvl hardcore hp hp atk def crit).

(** [attack_enemy]: the damage before mitigation and the critical flag. *)
Definition attack_enemy (self : t) (rng : RandomSource)
  : Outcome (Z * bool * RandomSource) :=
  let '(u, rng1) := random_random rng in
  let is_critical := PrimFloat.ltb u (critical_chance self) in
  let '(roll, rng2) := random_randint (-5) 10 rng1 in
  let damage := attack self + roll in
  if is_critical then
    doubled <- int_mul_float damage 2.0%float ;;
    damage' <- int_of_float doubled ;;
    Done (damage', is_critical, rng2)
  else Done (damage, is_critical, rng2).

(** [take_damage]: the hero after the hit and the damage dealt. *)
Definition take_damage (self : t) (damage : Z) : t * Z :=
  let actual_damage := Z.max (damage - defense self / 2) 1 in
  (mk (name self) (hero_class self) (level self) (hardcore_mode self)
      (max_hp self) (current_hp self - actual_damage)
      (attack self) (defense self) (critical_chance self),
   actual_damage).

Definition is_alive (self : t) : bool := 0 <? current_hp self.

End Hero.

(** ** class Enemy *)

Module Enemy.

Record t : Type := mk {
  level : Z;
  hardcore_mode : bool;
  name : string;
  max_hp : Z;
  current_hp : Z;
  attack : Z;
  defense : Z
}.

Definition prefixes : list string :=
  ["Dark"; "Ancient"; "Cursed"; "Vile"; "Shadow"; "Blood"].

Definition creatures : list string :=
  ["Dragon"; "Demon"; "Golem"; "Wraith"; "Beast"; "Lich"].

Definition _generate_name (rng : RandomSource) : string * RandomSource :=
  let '(p, rng1) := random_choice prefixes rng in
  let '(c, rng2) := random_choice creatures rng1 in
  ((p ++ " " ++ c)%string, rng2).

(** [Enemy.__init__]: the level offset is drawn first, then the name. *)
Definition init (hero_level : Z) (hardcore : bool) (rng : RandomSource)
  : Outcome (t * RandomSource) :=
  let '(offset, rng1) := random_randint (-2) 3 rng in
  let lvl := hero_level + offset in
  let difficulty_multiplier := if hardcore then 1.5%float else 1.0%float in
  let '(nm, rng2) := _generate_name rng1 in
  hp_f <- int_mul_float (100 + lvl * 12) difficulty_multiplier ;;
  hp <- int_of_float hp_f ;;
  atk_f <- int_mul_float (20 + lvl * 2) difficulty_multiplier ;;
  atk <- int_of_float atk_f ;;
  Done (mk lvl hardcore nm hp hp atk (10 + lvl), rng2).

(** [attack_hero]: 0 on a miss, otherwise the damage before mitigation.  The
    second draw is made only when the attack does not miss. *)
Definition attack_hero (self : t) (rng : RandomSource) : Z * RandomSource :=
  let '(u, rng1) := random_random rng in
  if PrimFloat.ltb u 0.15%float then (0, rng1)
  else
    let '(roll, rng2) := random_randint (-3) 8 rng1 in
    (attack self + roll, rng2).

Definition take_damage (self : t) (damage : Z) : t * Z :=
  let actual_damage := Z.max (damage - defense self / 2) 1 in
  (mk (level self) (hardcore_mode self) (name self) (max_hp self)
      (current_hp self - actual_damage) (attack self) (defense self),
   actual_damage).

Definition is_alive (self : t) : bool := 0 <? current_hp self.

End Enemy.

(** ** class BattleSimulator *)

(** The message of one [log_event] call, one constructor per f-string of
    [simulate_battle], with the values the f-string prints. *)
Inductive Message : Type :=
| BattleStart
| Versus (hero_name hero_class : string) (hero_level : Z)
         (enemy_name : string) (enemy_level : Z)
| HeroStats (hp attack defense : Z)
| EnemyStats (hp attack defense : Z)
| HardcoreActive
| Blank
| HeroAttacks (hero_name : string) (damage dealt : Z) (critical : bool)
| EnemyHP (shown max_hp : Z)
| EnemyDefeated (enemy_name : string)
| EnemyMisses (enemy_name : string)
| EnemyAttacks (enemy_name : string) (damage dealt : Z)
| HeroHP (shown max_hp : Z)
| HeroDefeated (hero_name : string)
| BattleTimeout
| BattleEnd (victory : bool).

(** A log line: [log_event] prefixes the message with the wall-clock time,
    which is left out, and with the turn counter at the time of the call. *)
Record LogEntry : Type := mkEntry {
  entry_turn : Z;
  entry_message : Message
}.

Module BattleSimulator.

Record t : Type := mk {
  hero : Hero.t;
  enemy : Enemy.t;
  battle_log : list LogEntry;
  turn_count : Z;
  max_turns : Z
}.

(** [BattleSimulator.__init__]. *)
Definition init (h : Hero.t) (e : Enemy.t) : t := mk h e [] 0 50.

Definition log_event (self : t) (message : Message) : t :=
  mk (hero self) (enemy self)
     (battle_log self ++ [mkEntry (turn_count self) message])
     (turn_count self) (max_turns self).

Definition set_hero (self : t) (h : Hero.t) : t :=
  mk h (enemy self) (battle_log self) (turn_count self) (max_turns self).

Definition set_enemy (self : t) (e : Enemy.t) : t :=
  mk (hero self) e (battle_log self) (turn_count self) (max_turns self).

Definition increment_turn (self : t) : t :=
  mk (hero self) (enemy self) (battle_log self) (turn_count self + 1)
     (max_turns self).

(** The lines logged before the loop. *)
Definition announce (self : t) : t :=
  let h := hero self in
  let e := enemy self in
  let s1 := log_event self BattleStart in
  let s2 := log_event s1 (Versus (Hero.name h) (Hero.hero_class h) (Hero.level h)
                                 (Enemy.name e) (Enemy.level e)) in
  let s3 := log_event s2 (HeroStats (Hero.max_hp h) (Hero.attack h)
                                    (Hero.defense h)) in
  let s4 := log_event s3 (EnemyStats (Enemy.max_hp e) (Enemy.attack e)
                                     (Enemy.defense e)) in
  let s5 := if Hero.hardcore_mode h then log_event s4 HardcoreActive else s4 in
  log_event s5 Blank.

(** The condition of the [while]. *)
Definition loop_condition (self : t) : bool :=
  Hero.is_alive (hero self) && Enemy.is_alive (enemy self)
  && (turn_count self <? max_turns self).

(** The enemy's half of a turn; the flag tells whether it ends in [break]. *)
Definition enemy_turn (self : t) (rng : RandomSource)
  : bool * t * RandomSource :=
  let '(enemy_damage, rng1) := Enemy.attack_hero (enemy self) rng in
  let s1 :=
    if enemy_damage =? 0 then
      log_event self (EnemyMisses (Enemy.name (enemy self)))
    else
      let '(h', actual_damage) := Hero.take_damage (hero self) enemy_damage in
      log_event (set_hero self h')
                (EnemyAttacks (Enemy.name (enemy self)) enemy_damage actual_damage) in
  let s2 := log_event s1 (HeroHP (Z.max 0 (Hero.current_hp (hero s1)))
                                 (Hero.max_hp (hero s1))) in
  let s3 := log_event s2 Blank in
  if negb (Hero.is_alive (hero s3)) then
    (true, log_event s3 (HeroDefeated (Hero.name (hero s3))), rng1)
  else (false, s3, rng1).

(** The body of the [while]; the flag tells whether it ends in [break]. *)
Definition loop_body (self : t) (rng : RandomSource)
  : Outcome (bool * t * RandomSource) :=
  let s0 := increment_turn self in
  '(hero_damage, is_crit, rng1) <- Hero.attack_enemy (hero s0) rng ;;
  let '(e', actual_damage) := Enemy.take_damage (enemy s0) hero_damage in
  let s1 := set_enemy s0 e' in
  let s2 := log_event s1 (HeroAttacks (Hero.name (hero s1)) hero_damage
                                      actual_damage is_crit) in
  let s3 := log_event s2 (EnemyHP (Z.max 0 (Enemy.current_hp (enemy s2)))
                                  (Enemy.max_hp (enemy s2))) in
  if negb (Enemy.is_alive (enemy s3)) then
    Done (true, log_event s3 (EnemyDefeated (Enemy.name (enemy s3))), rng1)
  else Done (enemy_turn s3 rng1).

(** The [while] loop, unfolded at most [fuel] times. *)
Fixpoint while_loop (fuel : nat) (self : t) (rng : RandomSource)
  : Outcome (t * RandomSource) :=
  if loop_condition self then
    match fuel with
    | O => OutOfFuel
    | S fuel' =>
        '(broke, s', rng') <- loop_body self rng ;;
        if (broke : bool) then Done (s', rng') else while_loop fuel' s' rng'
    end
  else Done (self, rng).

(** What follows the loop: the timeout test, then the verdict. *)
Definition conclude (self : t) : bool * t :=
  if max_turns self <=? turn_count self then
    (false, log_event self BattleTimeout)
  else
    let victory := Hero.is_alive (hero self) in
    (victory, log_event self (BattleEnd victory)).

Definition simulate_battle (fuel : nat) (self : t) (rng : RandomSource)
  : Outcome (bool * t * RandomSource) :=
  '(s, rng') <- while_loop fuel (announce self) rng ;;
  let '(victory, s') := conclude s in
  Done (victory, s', rng').

End BattleSimulator.

(** ** validate_arguments *)

(** The attributes of the parsed command line. *)
Record Args : Type := mkArgs {
  player_name : string;
  hero_class : string;
  level : Z;
  hardcore_mode : bool;
  battle_date : string
}.

(** [in] on a list of strings. *)
Definition str_in (x : string) (l : list string) : bool :=
  existsb (String.eqb x) l.

(** [validate_arguments].  [strptime_ok d] stands for the standard library's
    [datetime.strptime(d, '%Y-%m-%d')] returning without [ValueError]. *)
Definition validate_arguments (strptime_ok : string -> bool) (args : Args)
  : Outcome unit :=
  if (level args <? 1) || (100 <? level args) then
    Raised (ValueError (LevelMustBeBetween (level args)))
  else if negb (str_in (hero_class args) Hero.VALID_CLASSES) then
    Raised (ValueError (HeroClassMustBeOneOf (hero_class args)))
  else if negb (strptime_ok (battle_date args)) then
    Raised (ValueError (BattleDateMustBeInFormat (battle_date args)))
  else Done tt.

(** ** The tables and formulas of the specification *)

(** The enumerated set of hero classes and the row of each in the table of
    the stat model: baseHP, baseAttack, baseDefense, baseCrit. *)
Inductive HeroClass : Type := Warrior | Mage | Rogue.

Definition class_name (c : HeroClass) : string :=
  match c with
  | Warrior => "Warrior"
  | Mage => "Mage"
  | Rogue => "Rogue"
  end.

Definition baseHP (c : HeroClass) : Z :=
  match c with Warrior => 150 | Mage => 100 | Rogue => 120 end.

Definition baseAttack (c : HeroClass) : Z :=
  match c with Warrior => 25 | Mage => 35 | Rogue => 30 end.

Definition baseDefense (c : HeroClass) : Z :=
  match c with Warrior => 20 | Mage => 10 | Rogue => 15 end.

Definition baseCrit (c : HeroClass) : Q :=
  match c with Warrior => 15 # 100 | Mage => 25 # 100 | Rogue => 35 # 100 end.

(** criticalChance = min(baseCrit + level x 0.002, 0.75), over the rationals. *)
Definition spec_criticalChance (c : HeroClass) (lvl : Z) : Q :=
  Qmin (baseCrit c + inject_Z lvl * (2 # 1000)) (75 # 100).

(** The same formula in binary64 arithmetic, as a program computes it. *)
Definition float_criticalChance (c : HeroClass) (lvl : Z) : float :=
  let b := match c with
           | Warrior => 0.15%float | Mage => 0.25%float | Rogue => 0.35%float
           end in
  float_min (PrimFloat.add b (PrimFloat.mul (PrimFloat.of_uint63 (Uint63.of_Z lvl))
                                            0.002%float))
            0.75%float.

(** The rational number a finite float stands for (0 for the others). *)
Definition float_to_Q (x : float) : Q :=
  match Prim2SF x with
  | S754_finite s m e =>
      let v := match e with
               | Z0 => inject_Z (Zpos m)
               | Zpos p => inject_Z (Zpos m * 2 ^ Zpos p)
               | Zneg p => Zpos m # (2 ^ p)
               end in
      if s then Qopp v else v
  | _ => 0%Q
  end.

(** Enemy maxHealth and attack: floor(base x difficultyMultiplier). *)
Definition spec_scaled (base : Z) (hardcore : bool) : Z :=
  if hardcore then (base * 3) / 2 else base.

(** Mitigated damage: max(rawDamage - floor(defense / 2), 1). *)
Definition spec_actualDamage (rawDamage defense : Z) : Z :=
  Z.max (rawDamage - defense / 2) 1.

(** ** Auxiliary definitions for the statements *)

(** The integers [lo], [lo + 1], ... *)
Fixpoint range_from (lo : Z) (n : nat) : list Z :=
  match n with
  | O => []
  | S n' => lo :: range_from (lo + 1) n'
  end.

Definition zrange (lo hi : Z) : list Z := range_from lo (Z.to_nat (hi - lo + 1)).

Definition outcome_eqb (c : Outcome Z) (z : Z) : bool :=
  match c with
  | Done a => a =? z
  | _ => false
  end.

(** The draw [random.random() < p] made on the next raw draw. *)
Definition bernoulli (p : float) (rng : RandomSource) : bool :=
  PrimFloat.ltb (fst (random_random rng)) p.

Definition is_hero_attack (m : Message) : bool :=
  match m with HeroAttacks _ _ _ _ => true | _ => false end.

Definition is_enemy_action (m : Message) : bool :=
  match m with EnemyMisses _ | EnemyAttacks _ _ _ => true | _ => false end.

Definition is_enemy_defeated (m : Message) : bool :=
  match m with EnemyDefeated _ => true | _ => false end.

(** The lines of a turn that report no action: health bars, blank lines and
    the hero's defeat. *)
Definition narrates (turn : Z) (entry : LogEntry) : Prop :=
  entry_turn entry = turn /\
  is_hero_attack (entry_message entry) = false /\
  is_enemy_action (entry_message entry) = false /\
  is_enemy_defeated (entry_message entry) = false.

(** In a log, every enemy action comes after a hero attack of the same
    turn. *)
Definition hero_first (log : list LogEntry) : Prop :=
  forall before entry after,
    log = before ++ entry :: after ->
    is_enemy_action (entry_message entry) = true ->
    exists hit,
      In hit before /\
      is_hero_attack (entry_message hit) = true /\
      entry_turn hit = entry_turn entry.

(** In a log, no enemy action belongs to a turn in which the enemy's defeat
    is logged. *)
Definition no_action_when_defeated (log : list LogEntry) : Prop :=
  forall defeat action,
    In defeat log -> In action log ->
    is_enemy_defeated (entry_message defeat) = true ->
    is_enemy_action (entry_message action) = true ->
    entry_turn action <> entry_turn defeat.

(** The three facts about the log that every turn preserves. *)
Definition log_in_order (s : BattleSimulator.t) : Prop :=
  hero_first (BattleSimulator.battle_log s) /\
  no_action_when_defeated (BattleSimulator.battle_log s) /\
  Forall (fun entry => entry_turn entry <= BattleSimulator.turn_count s)
         (BattleSimulator.battle_log s).

(** Whenever the enemy's defeat is in the log, it was logged in the current
    turn, the enemy is dead and the hero alive. *)
Definition defeat_is_final (s : BattleSimulator.t) : Prop :=
  forall entry,
    In entry (BattleSimulator.battle_log s) ->
    is_enemy_defeated (entry_message entry) = true ->
    entry_turn entry = BattleSimulator.turn_count s /\
    Hero.is_alive (BattleSimulator.hero s) = true /\
    Enemy.is_alive (BattleSimulator.enemy s) = false.

(** The least damage a hit of the hero deals after mitigation. *)
Definition least_hit (h : Hero.t) (e : Enemy.t) : Z :=
  Hero.attack h - 5 - Enemy.defense e / 2.

(** After [turn_count] turns the enemy has lost at least that many least
    hits, in a battle whose enemy cannot outlast 15 of them. *)
Definition worn_down (h : Hero.t) (e : Enemy.t) (s : BattleSimulator.t) : Prop :=
  Hero.attack (BattleSimulator.hero s) = Hero.attack h /\
  Enemy.defense (BattleSimulator.enemy s) = Enemy.defense e /\
  BattleSimulator.max_turns s = 50 /\
  0 <= BattleSimulator.turn_count s <= 15 /\
  Enemy.current_hp (BattleSimulator.enemy s)
  + BattleSimulator.turn_count s * least_hit h e
  <= Enemy.max_hp e.

(** Between two states of a session neither health value has gone up and
    neither maximum has changed. *)
Definition health_not_increased (s s' : BattleSimulator.t) : Prop :=
  Hero.current_hp (BattleSimulator.hero s')
  <= Hero.current_hp (BattleSimulator.hero s) /\
  Enemy.current_hp (BattleSimulator.enemy s')
  <= Enemy.current_hp (BattleSimulator.enemy s) /\
  Hero.max_hp (BattleSimulator.hero s') = Hero.max_hp (BattleSimulator.hero s) /\
  Enemy.max_hp (BattleSimulator.enemy s') = Enemy.max_hp (BattleSimulator.enemy s).

(** A level-1 Warrior against the enemy of [Enemy(1, True)] when every raw
    draw is 0: the enemy has level -1 and 132 HP, every hit of the hero is
    critical and deals 40. *)
Definition overkill_battle : Outcome (bool * BattleSimulator.t) :=
  h <- Hero.init "A" "Warrior" 1 false ;;
  '(e, rng) <- Enemy.init 1 true (fun _ => 0%N) ;;
  '(victory, s, _) <- BattleSimulator.simulate_battle 50 (BattleSimulator.init h e) rng ;;
  Done (victory, s).

(** A battle in which the enemy falls to the hero's hit of turn 50: a level-1
    Warrior against the enemy made by [Enemy(27, False)] when the offset draw
    is +2 (level 29, 448 HP, defense 39).  In every turn the hero does not
    roll a critical hit, rolls +1 (9 damage after mitigation), and the enemy
    misses. *)
Definition turn50_draws : RandomSource :=
  fun i =>
    match i with
    | 0%nat => 4%N
    | 1%nat | 2%nat => 0%N
    | _ => match (i mod 3)%nat with
           | 0%nat => (2 ^ 52)%N
           | 1%nat => 6%N
           | _ => 0%N
           end
    end.

Definition turn50_battle (fuel : nat) : Outcome (bool * BattleSimulator.t) :=
  h <- Hero.init "A" "Warrior" 1 false ;;
  '(e, rng) <- Enemy.init 27 false turn50_draws ;;
  '(victory, s, _) <- BattleSimulator.simulate_battle fuel (BattleSimulator.init h e) rng ;;
  Done (victory, s).

(** ** main *)

(** What an output action of [main] ends with: it completes, or an exception
    leaves it, which the handlers of [main] tell apart as [ValueError] (the
    [UnicodeEncodeError] of a [print] whose text the stream cannot encode is
    one) or any other [Exception]. *)
Inductive Effect : Type :=
| Completed
| RaisesValueError
| RaisesException.

(** The console of a run.  Inside its [try] block [main] prints a header
    before the hero is built, a banner before the reports and a closing
    banner after them; in between, the battle prints every line it logs
    ([log_event]); each handler prints its message to the standard error.
    A field is the outcome of the first [print] of its block that raises,
    [Completed] when none does.  The narration is given the log of the
    battle, which is what it prints. *)
Record Console : Type := mkConsole {
  print_header : Effect;
  print_narration : list LogEntry -> Effect;
  print_reports_banner : Effect;
  print_complete : Effect;
  print_error : Effect
}.

(** The two static methods of [ReportGenerator], as [main] calls them.  Both
    format their arguments, write a file and print its name, so their
    outcome is that of the file system and of the console. *)
Record ReportGenerator : Type := mkReports {
  save_text_log : list LogEntry -> Effect;
  generate_html_report :
    Hero.t -> Enemy.t -> bool -> list LogEntry -> string -> Effect
}.

(** The [except] clause an exception of the [try] block lands in. *)
Inductive Handler : Type :=
| ExceptValueError
| ExceptException.

Definition handler_of (e : PyError) : Handler :=
  match e with
  | ValueError _ => ExceptValueError
  | KeyError _ | OverflowError => ExceptException
  end.

(** A statement of the [try] block: it goes on with a value, or raises into
    a handler. *)
Inductive Try (A : Type) : Type :=
| GoesOn (a : A)
| Caught (handler : Handler)
| Unfinished.

Arguments GoesOn {A} a.
Arguments Caught {A} handler.
Arguments Unfinished {A}.

Definition call {A : Type} (c : Outcome A) : Try A :=
  match c with
  | Done a => GoesOn a
  | Raised e => Caught (handler_of e)
  | OutOfFuel => Unfinished
  end.

Definition output (effect : Effect) : Try unit :=
  match effect with
  | Completed => GoesOn tt
  | RaisesValueError => Caught ExceptValueError
  | RaisesException => Caught ExceptException
  end.

Definition and_then {A B : Type} (c : Try A) (k : A -> Try B) : Try B :=
  match c with
  | GoesOn a => k a
  | Caught handler => Caught handler
  | Unfinished => Unfinished
  end.

Notation "x <~ c ;; k" := (and_then c (fun x => k))
  (at level 61, c at next level, right associativity).
Notation "' p <~ c ;; k" := (and_then c (fun x => let p := x in k))
  (at level 61, p pattern, c at next level, right associativity).

(** The [try] block of [main], statement by statement, up to the status
    passed to [sys.exit].  The hero and the enemy that the reports read are
    the objects the battle has mutated, that is, those of the final session.
    The battle prints while it runs; its model leaves the console out, so
    the outcome of its prints is taken once the battle has returned. *)
Definition main_try (strptime_ok : string -> bool) (console : Console)
           (reports : ReportGenerator) (fuel : nat) (args : Args)
           (rng : RandomSource) : Try Z :=
  _ <~ call (validate_arguments strptime_ok args) ;;
  _ <~ output (print_header console) ;;
  h <~ call (Hero.init (player_name args) (hero_class args) (level args)
                       (hardcore_mode args)) ;;
  '(e, rng1) <~ call (Enemy.init (level args) (hardcore_mode args) rng) ;;
  '(victory, s, _) <~ call (BattleSimulator.simulate_battle fuel
                              (BattleSimulator.init h e) rng1) ;;
  _ <~ output (print_narration console (BattleSimulator.battle_log s)) ;;
  _ <~ output (print_reports_banner console) ;;
  _ <~ output (save_text_log reports (BattleSimulator.battle_log s)) ;;
  _ <~ output (generate_html_report reports
                 (BattleSimulator.hero s) (BattleSimulator.enemy s) victory
                 (BattleSimulator.battle_log s) (battle_date args)) ;;
  _ <~ output (print_complete console) ;;
  GoesOn (if (victory : bool) then 0 else 1).

(** A handler of [main]: it prints its message and exits with [status]; an
    exception of that [print] is caught by nothing, and the interpreter
    ends with status 1. *)
Definition handle (console : Console) (status : Z) : Z :=
  match print_error console with
  | Completed => status
  | RaisesValueError | RaisesException => 1
  end.

(** [main] from the parsed arguments on: the exit status of the process. *)
Definition main (strptime_ok : string -> bool) (console : Console)
           (reports : ReportGenerator) (fuel : nat) (args : Args)
           (rng : RandomSource) : Outcome Z :=
  match main_try strptime_ok console reports fuel args rng with
  | GoesOn status => Done status
  | Caught ExceptValueError => Done (handle console 2)
  | Caught ExceptException => Done (handle console 3)
  | Unfinished => OutOfFuel
  end.

(** A console and report writers that raise nothing. *)
Definition quiet_console : Console :=
  mkConsole Completed (fun _ => Completed) Completed Completed Completed.

Definition quiet_reports : ReportGenerator :=
  mkReports (fun _ => Completed) (fun _ _ _ _ _ => Completed).

(** ** Further definitions for the statements *)

(** The random source after [n] more draws. *)
Definition skip_draws (n : nat) (rng : RandomSource) : RandomSource :=
  fun i => rng (n + i)%nat.

(** The critical chance of a hero of class [cls] and level [lvl], NaN when
    the computation raises. *)
Definition critical_chance_of (cls : string) (lvl : Z) : float :=
  match Hero._calculate_critical_chance cls lvl with
  | Done p => p
  | _ => PrimFloat.nan
  end.

(** The number of hero attacks in a log. *)
Definition hero_attack_count (log : list LogEntry) : nat :=
  List.length (filter (fun entry => is_hero_attack (entry_message entry)) log).

(** The turn numbers of a log never go down. *)
Definition turns_ascend (log : list LogEntry) : Prop :=
  StronglySorted (fun a b => entry_turn a <= entry_turn b) log.

(** The line that closes a battle. *)
Definition verdict_line (s : BattleSimulator.t) (victory : bool) : LogEntry :=
  mkEntry (BattleSimulator.turn_count s)
          (if BattleSimulator.max_turns s <=? BattleSimulator.turn_count s
           then BattleTimeout else BattleEnd victory).

(** What a session [s1] has logged since the state [s0]: the lines [new],
    with turn numbers between the two counters and never going down, one
    hero attack per turn played and at most six lines per turn after the
    opening ones. *)
Definition log_grown (s0 s1 : BattleSimulator.t) (new : list LogEntry) : Prop :=
  BattleSimulator.battle_log s1 = BattleSimulator.battle_log s0 ++ new /\
  BattleSimulator.turn_count s0 <= BattleSimulator.turn_count s1 /\
  Forall (fun entry => BattleSimulator.turn_count s0 <= entry_turn entry
                       <= BattleSimulator.turn_count s1) new /\
  turns_ascend new /\
  Z.of_nat (hero_attack_count new)
  = BattleSimulator.turn_count s1 - BattleSimulator.turn_count s0 /\
  Z.of_nat (List.length new)
  <= 6 * (BattleSimulator.turn_count s1 - BattleSimulator.turn_count s0) + 6.

(** A hero, an enemy after a series of hits. *)
Definition hero_after_hits (h : Hero.t) (hits : list Z) : Hero.t :=
  fold_left (fun h' damage => fst (Hero.take_damage h' damage)) hits h.

Definition enemy_after_hits (e : Enemy.t) (hits : list Z) : Enemy.t :=
  fold_left (fun e' damage => fst (Enemy.take_damage e' damage)) hits e.

(** The health a series of hits costs a defender of the given defense. *)
Definition total_damage (defense : Z) (hits : list Z) : Z :=
  fold_right (fun damage total => spec_actualDamage damage defense + total) 0 hits.

(** * Properties *)

(** ** Finite ranges *)

Lemma In_range_from (n : nat) :
  forall lo z, lo <= z < lo + Z.of_nat n -> In z (range_from lo n).
Proof.
  induction n as [|n IH]; intros lo z Hz.
  - simpl in Hz. lia.
  - simpl. destruct (Z.eq_dec lo z) as [->|Hne]; [now left|].
    right. apply IH. lia.
Qed.

Lemma In_zrange (lo hi z : Z) : lo <= z <= hi -> In z (zrange lo hi).
Proof.
  intros Hz. unfold zrange. apply In_range_from. lia.
Qed.

Lemma forallb_zrange (p : Z -> bool) (lo hi : Z) :
  forallb p (zrange lo hi) = true -> forall z, lo <= z <= hi -> p z = true.
Proof.
  intros Hall z Hz. rewrite forallb_forall in Hall.
  apply Hall, In_zrange, Hz.
Qed.

Lemma Forall_zrange (P : Z -> Prop) (lo hi : Z) :
  Forall P (zrange lo hi) -> forall z, lo <= z <= hi -> P z.
Proof.
  intros Hall z Hz. rewrite Forall_forall in Hall.
  apply Hall, In_zrange, Hz.
Qed.

(** ** Float computations on the ranges the program uses *)

(** Doubling a damage value through [int(damage * 2.0)] is exact. *)
Lemma double_damage_exact (d : Z) :
  -1000 <= d <= 1000 ->
  (x <- int_mul_float d 2.0%float ;; int_of_float x) = Done (2 * d).
Proof.
  intros Hd.
  assert (H : outcome_eqb (x <- int_mul_float d 2.0%float ;; int_of_float x)
                          (2 * d) = true).
  { revert d Hd.
    apply (forallb_zrange
             (fun d => outcome_eqb (x <- int_mul_float d 2.0%float ;; int_of_float x)
                                   (2 * d))).
    vm_compute. reflexivity. }
  destruct (x <- int_mul_float d 2.0%float ;; int_of_float x); simpl in H;
    try discriminate.
  apply Z.eqb_eq in H. now subst.
Qed.

(** Scaling an enemy stat through [int(base * difficulty_multiplier)]. *)
Lemma scale_stat_exact (base : Z) (hardcore : bool) :
  0 <= base <= 1400 ->
  (x <- int_mul_float base (if hardcore then 1.5%float else 1.0%float) ;;
   int_of_float x) = Done (spec_scaled base hardcore).
Proof.
  intros Hb.
  set (run := fun (hc : bool) (b : Z) =>
                x <- int_mul_float b (if hc then 1.5%float else 1.0%float) ;;
                int_of_float x).
  assert (H : outcome_eqb (run hardcore base) (spec_scaled base hardcore) = true).
  { revert base Hb. destruct hardcore.
    - apply (forallb_zrange (fun b => outcome_eqb (run true b) (spec_scaled b true))).
      vm_compute. reflexivity.
    - apply (forallb_zrange (fun b => outcome_eqb (run false b) (spec_scaled b false))).
      vm_compute. reflexivity. }
  change (run hardcore base = Done (spec_scaled base hardcore)).
  destruct (run hardcore base); simpl in H; try discriminate.
  apply Z.eqb_eq in H. now subst.
Qed.

(** ** Hero derivation *)

Lemma valid_class_enumerated (cls : string) :
  In cls Hero.VALID_CLASSES -> exists c, cls = class_name c.
Proof.
  simpl. intros [<-|[<-|[<-|[]]]];
    [exists Warrior | exists Mage | exists Rogue]; reflexivity.
Qed.

Lemma class_name_valid (c : HeroClass) : In (class_name c) Hero.VALID_CLASSES.
Proof.
  destruct c; simpl; auto.
Qed.

Ltac each_of_range :=
  match goal with
  | |- Forall ?P (zrange ?lo ?hi) =>
      let l := eval vm_compute in (zrange lo hi) in
      change (Forall P l);
      repeat (apply Forall_cons; [vm_compute; reflexivity|]);
      apply Forall_nil
  end.

Lemma calculate_critical_chance_valid (c : HeroClass) (lvl : Z) :
  1 <= lvl <= 100 ->
  Hero._calculate_critical_chance (class_name c) lvl
  = Done (float_criticalChance c lvl).
Proof.
  revert lvl.
  destruct c;
    apply (Forall_zrange
             (fun l => Hero._calculate_critical_chance (class_name _) l
                       = Done (float_criticalChance _ l)));
    each_of_range.
Qed.

Lemma criticalChance_close (c : HeroClass) (lvl : Z) :
  1 <= lvl <= 100 ->
  (Qabs (float_to_Q (float_criticalChance c lvl) - spec_criticalChance c lvl)
   <= 1 # 2 ^ 53)%Q.
Proof.
  intros Hl. apply Qle_bool_iff. revert lvl Hl.
  destruct c;
    apply (forallb_zrange
             (fun l => Qle_bool (Qabs (float_to_Q (float_criticalChance _ l)
                                       - spec_criticalChance _ l))
                                (1 # 2 ^ 53)));
    vm_compute; reflexivity.
Qed.

Lemma hero_init_valid (nm : string) (c : HeroClass) (lvl : Z) (hardcore : bool) :
  1 <= lvl <= 100 ->
  Hero.init nm (class_name c) lvl hardcore
  = Done (Hero.mk nm (class_name c) lvl hardcore
                  (baseHP c + lvl * 10) (baseHP c + lvl * 10)
                  (baseAttack c + lvl * 2) (baseDefense c + lvl * 1)
                  (float_criticalChance c lvl)).
Proof.
  intros Hl. unfold Hero.init.
  rewrite (calculate_critical_chance_valid c lvl Hl).
  destruct c; reflexivity.
Qed.

(** C2: for every valid class and every level of 1..100, [Hero.__init__]
    returns a hero whose maxHealth, attack and defense are the table value
    plus level x 10, x 2 and x 1, and whose criticalChance is
    min(baseCrit + level x 0.002, 0.75): it is that expression evaluated in
    floats, and it lies within 2^-53 of its exact rational value.  A level-1
    Warrior without hardcore gets 160, 27, 21 and the float 0.152. *)
Theorem C2_hero_derivation (nm cls : string) (lvl : Z) (hardcore : bool) :
  In cls Hero.VALID_CLASSES ->
  1 <= lvl <= 100 ->
  (exists c h,
      cls = class_name c /\
      Hero.init nm cls lvl hardcore = Done h /\
      Hero.max_hp h = baseHP c + lvl * 10 /\
      Hero.current_hp h = Hero.max_hp h /\
      Hero.attack h = baseAttack c + lvl * 2 /\
      Hero.defense h = baseDefense c + lvl * 1 /\
      Hero.critical_chance h = float_criticalChance c lvl /\
      (Qabs (float_to_Q (Hero.critical_chance h) - spec_criticalChance c lvl)
       <= 1 # 2 ^ 53)%Q) /\
  Hero.init nm "Warrior" 1 false
  = Done (Hero.mk nm "Warrior" 1 false 160 160 27 21 0.152%float).
Proof.
  intros Hcls Hl. split; [|reflexivity].
  destruct (valid_class_enumerated cls Hcls) as [c ->].
  exists c. eexists. split; [reflexivity|].
  split; [apply hero_init_valid, Hl|].
  repeat split; apply criticalChance_close, Hl.
Qed.

Lemma C2_hero_derivation_witness :
  exists c h,
    "Mage" = class_name c /\
    Hero.init "Merlin" "Mage" 50 true = Done h /\
    Hero.max_hp h = baseHP c + 50 * 10 /\
    Hero.attack h = baseAttack c + 50 * 2 /\
    Hero.defense h = baseDefense c + 50 * 1.
Proof.
  destruct (C2_hero_derivation "Merlin" "Mage" 50 true) as [(c & h & H) _].
  - simpl. auto.
  - lia.
  - exists c, h. intuition.
Defined.

(** C9: for every name, valid class and level of 1..100, the two heroes
    built with hardcore off and on have the same maxHealth, currentHealth,
    attack, defense and criticalChance. *)
Theorem C9_hardcore_leaves_hero_stats (nm cls : string) (lvl : Z) :
  In cls Hero.VALID_CLASSES ->
  1 <= lvl <= 100 ->
  exists h0 h1,
    Hero.init nm cls lvl false = Done h0 /\
    Hero.init nm cls lvl true = Done h1 /\
    Hero.max_hp h0 = Hero.max_hp h1 /\
    Hero.current_hp h0 = Hero.current_hp h1 /\
    Hero.attack h0 = Hero.attack h1 /\
    Hero.defense h0 = Hero.defense h1 /\
    Hero.critical_chance h0 = Hero.critical_chance h1.
Proof.
  intros Hcls Hl.
  destruct (valid_class_enumerated cls Hcls) as [c ->].
  do 2 eexists.
  split; [apply hero_init_valid, Hl|].
  split; [apply hero_init_valid, Hl|].
  repeat split.
Qed.

Lemma C9_hardcore_leaves_hero_stats_witness :
  exists h0 h1,
    Hero.init "Merlin" "Mage" 50 false = Done h0 /\
    Hero.init "Merlin" "Mage" 50 true = Done h1 /\
    Hero.max_hp h0 = Hero.max_hp h1 /\
    Hero.attack h0 = Hero.attack h1.
Proof.
  destruct (C9_hardcore_leaves_hero_stats "Merlin" "Mage" 50) as (h0 & h1 & H).
  - simpl. auto.
  - lia.
  - exists h0, h1. intuition.
Defined.

(** ** Damage application *)

(** C4: for every raw damage and every defender, hero or enemy,
    [take_damage] returns max(rawDamage - floor(defense / 2), 1), subtracts
    exactly that amount from currentHealth, and the amount is at least 1. *)
Theorem C4_take_damage (h : Hero.t) (e : Enemy.t) (rawDamage : Z) :
  (snd (Hero.take_damage h rawDamage) = spec_actualDamage rawDamage (Hero.defense h) /\
   Hero.current_hp (fst (Hero.take_damage h rawDamage))
   = Hero.current_hp h - spec_actualDamage rawDamage (Hero.defense h) /\
   1 <= snd (Hero.take_damage h rawDamage)) /\
  (snd (Enemy.take_damage e rawDamage) = spec_actualDamage rawDamage (Enemy.defense e) /\
   Enemy.current_hp (fst (Enemy.take_damage e rawDamage))
   = Enemy.current_hp e - spec_actualDamage rawDamage (Enemy.defense e) /\
   1 <= snd (Enemy.take_damage e rawDamage)) /\
  (forall defense : Z, 2 * (defense / 2) <= defense < 2 * (defense / 2) + 2).
Proof.
  unfold Hero.take_damage, Enemy.take_damage, spec_actualDamage.
  cbn [fst snd Hero.current_hp Enemy.current_hp].
  repeat split; try lia; Z.div_mod_to_equations; lia.
Qed.

(** ** The error monad and the random source *)

Lemma bind_Done_inv {A B : Type} (c : Outcome A) (k : A -> Outcome B) (b : B) :
  bind c k = Done b -> exists a, c = Done a /\ k a = Done b.
Proof.
  destruct c as [a| |]; simpl; intros H; try discriminate.
  exists a. split; [reflexivity|exact H].
Qed.

Lemma randint_range (a b : Z) (rng : RandomSource) :
  a <= b -> a <= fst (random_randint a b rng) <= b.
Proof.
  intros Hab. unfold random_randint, next_draw. cbn [fst].
  pose proof (Z.mod_pos_bound (Z.of_N (rng O)) (b - a + 1)). lia.
Qed.

Lemma randint_onto (a b z : Z) (rest : RandomSource) :
  a <= z <= b ->
  exists rng, random_randint a b rng = (z, rest).
Proof.
  intros Hz.
  exists (fun i => match i with O => Z.to_N (z - a) | S j => rest j end).
  unfold random_randint, next_draw. f_equal.
  rewrite Z2N.id by lia. rewrite Z.mod_small by lia. lia.
Qed.

(** ** Enemy derivation *)

Lemma enemy_init_valid (hero_level : Z) (hardcore : bool) (rng : RandomSource) :
  1 <= hero_level <= 100 ->
  let draw := random_randint (-2) 3 rng in
  let lvl := hero_level + fst draw in
  let named := Enemy._generate_name (snd draw) in
  Enemy.init hero_level hardcore rng
  = Done (Enemy.mk lvl hardcore (fst named)
                   (spec_scaled (100 + lvl * 12) hardcore)
                   (spec_scaled (100 + lvl * 12) hardcore)
                   (spec_scaled (20 + lvl * 2) hardcore)
                   (10 + lvl),
          snd named).
Proof.
  intros Hl. cbv zeta. unfold Enemy.init.
  pose proof (randint_range (-2) 3 rng ltac:(lia)) as Hoff.
  destruct (random_randint (-2) 3 rng) as [offset rng1]. cbn [fst snd] in *.
  destruct (Enemy._generate_name rng1) as [nm rng2]. cbn [fst snd]. cbv zeta.
  destruct (bind_Done_inv _ _ _
              (scale_stat_exact (100 + (hero_level + offset) * 12) hardcore
                                ltac:(lia))) as (hp_f & -> & Hhp).
  destruct (bind_Done_inv _ _ _
              (scale_stat_exact (20 + (hero_level + offset) * 2) hardcore
                                ltac:(lia))) as (atk_f & -> & Hatk).
  cbn [bind]. rewrite Hhp. cbn [bind]. rewrite Hatk. reflexivity.
Qed.

(** C3: for every hero level of 1..100 and whatever the random source
    holds, the offset drawn is in -2..3, [Enemy.__init__] returns an enemy
    whose level is heroLevel + offset, whose maxHealth and attack are
    floor((100 + level x 12) x m) and floor((20 + level x 2) x m) with m = 1.5
    in hardcore and 1 otherwise, and whose defense is 10 + level, not scaled.
    Every offset of -2..3 is drawn by some source, and no floor is applied:
    a level-1 hero can meet an enemy of level 0 and one of level -1. *)
Theorem C3_enemy_derivation (hero_level : Z) (hardcore : bool) (rng : RandomSource) :
  1 <= hero_level <= 100 ->
  (let offset := fst (random_randint (-2) 3 rng) in
   -2 <= offset <= 3 /\
   exists e rng',
     Enemy.init hero_level hardcore rng = Done (e, rng') /\
     Enemy.level e = hero_level + offset /\
     Enemy.max_hp e = spec_scaled (100 + Enemy.level e * 12) hardcore /\
     Enemy.current_hp e = Enemy.max_hp e /\
     Enemy.attack e = spec_scaled (20 + Enemy.level e * 2) hardcore /\
     Enemy.defense e = 10 + Enemy.level e) /\
  (forall offset, -2 <= offset <= 3 ->
     exists rng0 e rng',
       Enemy.init hero_level hardcore rng0 = Done (e, rng') /\
       Enemy.level e = hero_level + offset) /\
  (exists rng0 e rng',
      Enemy.init 1 hardcore rng0 = Done (e, rng') /\ Enemy.level e = 0) /\
  (exists rng0 e rng',
      Enemy.init 1 hardcore rng0 = Done (e, rng') /\ Enemy.level e = -1).
Proof.
  intros Hl.
  assert (Honto : forall hl, 1 <= hl <= 100 -> forall offset, -2 <= offset <= 3 ->
            exists rng0 e rng',
              Enemy.init hl hardcore rng0 = Done (e, rng') /\
              Enemy.level e = hl + offset).
  { intros hl Hhl offset Hoff.
    destruct (randint_onto (-2) 3 offset rng Hoff) as [rng0 Hdraw].
    exists rng0. do 2 eexists.
    split; [apply enemy_init_valid, Hhl|].
    cbn [Enemy.level]. rewrite Hdraw. reflexivity. }
  split; [|split; [|split]].
  - split; [apply randint_range; lia|].
    do 2 eexists. split; [apply enemy_init_valid, Hl|].
    repeat split.
  - apply Honto, Hl.
  - apply (Honto 1 ltac:(lia) (-1) ltac:(lia)).
  - apply (Honto 1 ltac:(lia) (-2) ltac:(lia)).
Qed.

Lemma C3_enemy_derivation_witness :
  exists e rng',
    Enemy.init 50 true (fun _ => 5%N) = Done (e, rng') /\
    Enemy.level e = 53 /\
    Enemy.max_hp e = 1104 /\
    Enemy.attack e = 189 /\
    Enemy.defense e = 63.
Proof.
  destruct (C3_enemy_derivation 50 true (fun _ => 5%N) ltac:(lia))
    as [[_ (e & rng' & Hinit & Hlvl & Hhp & _ & Hatk & Hdef)] _].
  exists e, rng'. rewrite Hhp, Hatk, Hdef, Hlvl.
  split; [exact Hinit|]. repeat split.
Defined.


(** ** Enemy attacks and the zero test of the loop *)

Lemma attack_hero_cases (e : Enemy.t) (rng : RandomSource) :
  (bernoulli 0.15%float rng = true /\
   Enemy.attack_hero e rng = (0, snd (random_random rng))) \/
  (bernoulli 0.15%float rng = false /\
   exists roll rng', -3 <= roll <= 8 /\
     Enemy.attack_hero e rng = (Enemy.attack e + roll, rng')).
Proof.
  unfold bernoulli, Enemy.attack_hero.
  destruct (random_random rng) as [u rng1]. cbn [fst snd].
  destruct (PrimFloat.ltb u 0.15%float); [left; auto|right].
  split; [reflexivity|].
  pose proof (randint_range (-3) 8 rng1 ltac:(lia)) as Hroll.
  destruct (random_randint (-3) 8 rng1) as [roll rng2]. cbn [fst] in Hroll.
  exists roll, rng2. auto.
Qed.

(** The enemy's half of a turn when [attack_hero] returns 0. *)
Lemma enemy_turn_zero (s : BattleSimulator.t) (rng rng1 : RandomSource) :
  Enemy.attack_hero (BattleSimulator.enemy s) rng = (0, rng1) ->
  exists broke rest,
    BattleSimulator.enemy_turn s rng
    = (broke,
       BattleSimulator.mk
         (BattleSimulator.hero s) (BattleSimulator.enemy s)
         (BattleSimulator.battle_log s
          ++ mkEntry (BattleSimulator.turn_count s)
               (EnemyMisses (Enemy.name (BattleSimulator.enemy s))) :: rest)
         (BattleSimulator.turn_count s) (BattleSimulator.max_turns s),
       rng1) /\
    broke = negb (Hero.is_alive (BattleSimulator.hero s)) /\
    Forall (narrates (BattleSimulator.turn_count s)) rest.
Proof.
  intros Hatk. unfold BattleSimulator.enemy_turn. rewrite Hatk.
  cbn [Z.eqb]. unfold BattleSimulator.log_event.
  cbn [BattleSimulator.hero BattleSimulator.enemy BattleSimulator.battle_log
       BattleSimulator.turn_count BattleSimulator.max_turns].
  destruct (negb (Hero.is_alive (BattleSimulator.hero s)));
    rewrite <- !app_assoc; cbn [app]; do 2 eexists;
    (split; [reflexivity|]); (split; [reflexivity|]);
    repeat (constructor; [repeat split|]); constructor.
Qed.

(** The enemy's half of a turn when [attack_hero] returns a damage. *)
Lemma enemy_turn_hit (s : BattleSimulator.t) (rng rng1 : RandomSource) (damage : Z) :
  Enemy.attack_hero (BattleSimulator.enemy s) rng = (damage, rng1) ->
  damage <> 0 ->
  let h' := fst (Hero.take_damage (BattleSimulator.hero s) damage) in
  exists broke rest,
    BattleSimulator.enemy_turn s rng
    = (broke,
       BattleSimulator.mk
         h' (BattleSimulator.enemy s)
         (BattleSimulator.battle_log s
          ++ mkEntry (BattleSimulator.turn_count s)
               (EnemyAttacks (Enemy.name (BattleSimulator.enemy s)) damage
                  (spec_actualDamage damage (Hero.defense (BattleSimulator.hero s))))
             :: rest)
         (BattleSimulator.turn_count s) (BattleSimulator.max_turns s),
       rng1) /\
    broke = negb (Hero.is_alive h') /\
    Forall (narrates (BattleSimulator.turn_count s)) rest.
Proof.
  intros Hatk Hnz. unfold BattleSimulator.enemy_turn. rewrite Hatk.
  destruct (Z.eqb_spec damage 0) as [Hz|_]; [contradiction|].
  unfold Hero.take_damage, BattleSimulator.set_hero, BattleSimulator.log_event,
    spec_actualDamage.
  cbn [fst snd BattleSimulator.hero BattleSimulator.enemy BattleSimulator.battle_log
       BattleSimulator.turn_count BattleSimulator.max_turns].
  match goal with
  | |- context [if ?b then _ else _] => destruct b
  end;
    rewrite <- !app_assoc; cbn [app]; do 2 eexists;
    (split; [reflexivity|]); (split; [reflexivity|]);
    repeat (constructor; [repeat split|]); constructor.
Qed.

(** C10: an enemy built for a hero level of 1..100 has attack >= 18 and
    maxHealth >= 88 in both modes, so an attack that does not miss has raw
    damage >= 15; hence [attack_hero] returns 0 exactly when the 0.15 draw
    succeeds, and in the loop the enemy's half of a turn logs a miss and
    leaves the hero's health unchanged exactly on those draws, and otherwise
    logs a hit and lowers the hero's health. *)
Theorem C10_enemy_zero_is_miss
  (hero_level : Z) (hardcore : bool) (rng0 rng1 : RandomSource) (e : Enemy.t) :
  1 <= hero_level <= 100 ->
  Enemy.init hero_level hardcore rng0 = Done (e, rng1) ->
  18 <= Enemy.attack e /\
  88 <= Enemy.max_hp e /\
  (forall rng,
      (bernoulli 0.15%float rng = false -> 15 <= fst (Enemy.attack_hero e rng)) /\
      (fst (Enemy.attack_hero e rng) = 0 <-> bernoulli 0.15%float rng = true)) /\
  (forall (s : BattleSimulator.t) rng,
      Enemy.attack (BattleSimulator.enemy s) = Enemy.attack e ->
      let s' := snd (fst (BattleSimulator.enemy_turn s rng)) in
      let before := Hero.current_hp (BattleSimulator.hero s) in
      let after := Hero.current_hp (BattleSimulator.hero s') in
      let nm := Enemy.name (BattleSimulator.enemy s) in
      let turn := BattleSimulator.turn_count s in
      (after = before <-> bernoulli 0.15%float rng = true) /\
      (bernoulli 0.15%float rng = true ->
       exists rest,
         BattleSimulator.battle_log s'
         = BattleSimulator.battle_log s ++ mkEntry turn (EnemyMisses nm) :: rest) /\
      (bernoulli 0.15%float rng = false ->
       exists damage rest,
         15 <= damage /\
         after = before
                 - spec_actualDamage damage (Hero.defense (BattleSimulator.hero s)) /\
         BattleSimulator.battle_log s'
         = BattleSimulator.battle_log s
           ++ mkEntry turn
                (EnemyAttacks nm damage
                   (spec_actualDamage damage (Hero.defense (BattleSimulator.hero s))))
              :: rest)).
Proof.
  intros Hl Hinit.
  pose proof (enemy_init_valid hero_level hardcore rng0 Hl) as Hvalid.
  pose proof (randint_range (-2) 3 rng0 ltac:(lia)) as Hoff.
  cbv zeta in Hvalid. rewrite Hinit in Hvalid.
  destruct (random_randint (-2) 3 rng0) as [offset rng'].
  cbn [fst snd] in Hvalid, Hoff.
  assert (He : e = Enemy.mk (hero_level + offset) hardcore
                     (fst (Enemy._generate_name rng'))
                     (spec_scaled (100 + (hero_level + offset) * 12) hardcore)
                     (spec_scaled (100 + (hero_level + offset) * 12) hardcore)
                     (spec_scaled (20 + (hero_level + offset) * 2) hardcore)
                     (10 + (hero_level + offset))) by congruence.
  assert (Hatk : 18 <= Enemy.attack e).
  { rewrite He. cbn [Enemy.attack]. unfold spec_scaled.
    destruct hardcore; [Z.div_mod_to_equations|]; lia. }
  assert (Hhp : 88 <= Enemy.max_hp e).
  { rewrite He. cbn [Enemy.max_hp]. unfold spec_scaled.
    destruct hardcore; [Z.div_mod_to_equations|]; lia. }
  clear He Hoff Hvalid.
  split; [exact Hatk|]. split; [exact Hhp|]. split.
  - intros rng.
    destruct (attack_hero_cases e rng) as [[Hm ->]|[Hm (roll & rng2 & Hroll & ->)]];
      rewrite Hm; cbn [fst]; split; try lia; try discriminate; auto.
  - intros s rng Hsame. cbv zeta. rewrite <- Hsame in Hatk.
    destruct (attack_hero_cases (BattleSimulator.enemy s) rng)
      as [[Hm Hdraw]|[Hm (roll & rng2 & Hroll & Hdraw)]]; rewrite Hm.
    + destruct (enemy_turn_zero s rng _ Hdraw) as (broke & rest & -> & _).
      cbn [fst snd BattleSimulator.hero BattleSimulator.battle_log].
      split; [tauto|]. split; [|discriminate].
      intros _. exists rest. reflexivity.
    + destruct (enemy_turn_hit s rng _ _ Hdraw ltac:(lia)) as (broke & rest & -> & _).
      cbn [fst snd BattleSimulator.hero BattleSimulator.battle_log Hero.take_damage
           Hero.current_hp].
      fold (spec_actualDamage (Enemy.attack (BattleSimulator.enemy s) + roll)
              (Hero.defense (BattleSimulator.hero s))).
      split; [|split; [discriminate|]].
      * unfold spec_actualDamage. split; [lia|discriminate].
      * intros _. exists (Enemy.attack (BattleSimulator.enemy s) + roll), rest.
        split; [lia|]. split; reflexivity.
Qed.

Lemma C10_enemy_zero_is_miss_witness :
  exists e rng1,
    Enemy.init 1 false (fun _ => 0%N) = Done (e, rng1) /\
    18 <= Enemy.attack e /\ 88 <= Enemy.max_hp e.
Proof.
  assert (Hinit : Enemy.init 1 false (fun _ => 0%N)
                  = Done (Enemy.mk (-1) false "Dark Dragon" 88 88 18 9,
                          fun _ => 0%N)) by reflexivity.
  exists (Enemy.mk (-1) false "Dark Dragon" 88 88 18 9), (fun _ => 0%N).
  split; [exact Hinit|].
  destruct (C10_enemy_zero_is_miss 1 false _ _ _ ltac:(lia) Hinit) as (Ha & Hh & _).
  split; assumption.
Defined.

(** ** One turn of the battle loop *)

Lemma attack_enemy_valid (h : Hero.t) (rng : RandomSource) :
  -990 <= Hero.attack h <= 990 ->
  exists roll rng',
    -5 <= roll <= 10 /\
    Hero.attack_enemy h rng
    = Done (if bernoulli (Hero.critical_chance h) rng
            then 2 * (Hero.attack h + roll)
            else Hero.attack h + roll,
            bernoulli (Hero.critical_chance h) rng,
            rng').
Proof.
  intros Hatk. unfold Hero.attack_enemy, bernoulli.
  destruct (random_random rng) as [u rng1]. cbn [fst].
  pose proof (randint_range (-5) 10 rng1 ltac:(lia)) as Hroll.
  destruct (random_randint (-5) 10 rng1) as [roll rng2]. cbn [fst] in Hroll.
  exists roll, rng2. split; [exact Hroll|]. cbv zeta.
  destruct (PrimFloat.ltb u (Hero.critical_chance h)); [|reflexivity].
  destruct (bind_Done_inv _ _ _
              (double_damage_exact (Hero.attack h + roll) ltac:(lia)))
    as (doubled & -> & Hint).
  cbn [bind]. rewrite Hint. reflexivity.
Qed.

(** What one execution of the loop body does to the session: the hero's hit
    is applied and logged first; then either the enemy is dead and the turn
    ends there, or the enemy's half of the turn follows. *)
Lemma loop_body_shape (s s' : BattleSimulator.t) (rng rng' : RandomSource)
      (broke : bool) :
  BattleSimulator.loop_body s rng = Done (broke, s', rng') ->
  let turn := BattleSimulator.turn_count s + 1 in
  let h := BattleSimulator.hero s in
  let e := BattleSimulator.enemy s in
  exists damage critical rng1 h' new,
    Hero.attack_enemy h rng = Done (damage, critical, rng1) /\
    let e' := fst (Enemy.take_damage e damage) in
    s' = BattleSimulator.mk h' e'
           (BattleSimulator.battle_log s
            ++ mkEntry turn (HeroAttacks (Hero.name h) damage
                               (spec_actualDamage damage (Enemy.defense e)) critical)
            :: mkEntry turn (EnemyHP (Z.max 0 (Enemy.current_hp e')) (Enemy.max_hp e))
            :: new)
           turn (BattleSimulator.max_turns s) /\
    ((Enemy.is_alive e' = false /\ broke = true /\ h' = h /\ rng' = rng1 /\
      new = [mkEntry turn (EnemyDefeated (Enemy.name e))]) \/
     (Enemy.is_alive e' = true /\ broke = negb (Hero.is_alive h') /\
      exists enemy_damage rest,
        Enemy.attack_hero e' rng1 = (enemy_damage, rng') /\
        Forall (narrates turn) rest /\
        ((enemy_damage = 0 /\ h' = h /\
          new = mkEntry turn (EnemyMisses (Enemy.name e)) :: rest) \/
         (enemy_damage <> 0 /\ h' = fst (Hero.take_damage h enemy_damage) /\
          new = mkEntry turn (EnemyAttacks (Enemy.name e) enemy_damage
                                (spec_actualDamage enemy_damage (Hero.defense h)))
                :: rest)))).
Proof.
  intros Hbody. cbv zeta.
  unfold BattleSimulator.loop_body, BattleSimulator.increment_turn in Hbody.
  cbv zeta in Hbody. cbn [BattleSimulator.hero] in Hbody.
  destruct (Hero.attack_enemy (BattleSimulator.hero s) rng)
    as [[[damage critical] rng1]| |]; cbn [bind] in Hbody; try discriminate.
  exists damage, critical, rng1.
  set (e' := fst (Enemy.take_damage (BattleSimulator.enemy s) damage)).
  unfold Enemy.take_damage, BattleSimulator.set_enemy, BattleSimulator.log_event
    in Hbody.
  cbn [BattleSimulator.hero BattleSimulator.enemy BattleSimulator.battle_log
       BattleSimulator.turn_count BattleSimulator.max_turns
       Enemy.current_hp Enemy.max_hp Enemy.name] in Hbody.
  fold (spec_actualDamage damage (Enemy.defense (BattleSimulator.enemy s))) in Hbody.
  change (Enemy.mk _ _ _ _ _ _ _) with e' in Hbody.
  rewrite <- !app_assoc in Hbody. cbn [app] in Hbody.
  destruct (Enemy.is_alive e') eqn:Halive; cbn [negb] in Hbody.
  - (* the enemy survives the hit *)
    set (s1 := BattleSimulator.mk _ _ _ _ _) in Hbody.
    destruct (Enemy.attack_hero e' rng1) as [enemy_damage rng2] eqn:Hdraw.
    change e' with (BattleSimulator.enemy s1) in Hdraw.
    destruct (Z.eq_dec enemy_damage 0) as [->|Hnz].
    + destruct (enemy_turn_zero s1 rng1 rng2 Hdraw)
        as (b & rest & Hturn & Hb & Hrest).
      rewrite Hturn in Hbody. injection Hbody as <- <- <-.
      subst s1. cbn in Hrest |- *. rewrite <- app_assoc. cbn [app].
      do 2 eexists. split; [reflexivity|]. split; [reflexivity|]. right.
      split; [reflexivity|]. split; [exact Hb|].
      exists 0, rest. split; [reflexivity|]. split; [exact Hrest|].
      left. auto.
    + destruct (enemy_turn_hit s1 rng1 rng2 enemy_damage Hdraw Hnz)
        as (b & rest & Hturn & Hb & Hrest).
      rewrite Hturn in Hbody. injection Hbody as <- <- <-.
      subst s1. cbn in Hrest |- *. rewrite <- app_assoc. cbn [app].
      do 2 eexists. split; [reflexivity|]. split; [reflexivity|]. right.
      split; [reflexivity|]. split; [exact Hb|].
      exists enemy_damage, rest. split; [reflexivity|]. split; [exact Hrest|].
      right. auto.
  - (* the hit kills the enemy *)
    injection Hbody as <- <- <-. rewrite <- ?app_assoc. cbn [app].
    do 2 eexists. split; [reflexivity|]. split; [reflexivity|]. left. auto.
Qed.

(** What a turn leaves unchanged, and the direction in which it moves the
    counter and the two health values. *)
Lemma loop_body_frame (s s' : BattleSimulator.t) (rng rng' : RandomSource)
      (broke : bool) :
  BattleSimulator.loop_body s rng = Done (broke, s', rng') ->
  BattleSimulator.turn_count s' = BattleSimulator.turn_count s + 1 /\
  BattleSimulator.max_turns s' = BattleSimulator.max_turns s /\
  Hero.attack (BattleSimulator.hero s') = Hero.attack (BattleSimulator.hero s) /\
  Hero.max_hp (BattleSimulator.hero s') = Hero.max_hp (BattleSimulator.hero s) /\
  Enemy.max_hp (BattleSimulator.enemy s') = Enemy.max_hp (BattleSimulator.enemy s) /\
  Hero.current_hp (BattleSimulator.hero s')
  <= Hero.current_hp (BattleSimulator.hero s) /\
  Enemy.current_hp (BattleSimulator.enemy s')
  < Enemy.current_hp (BattleSimulator.enemy s).
Proof.
  intros Hbody.
  destruct (loop_body_shape _ _ _ _ _ Hbody)
    as (damage & critical & rng1 & h' & new & _ & -> & Hcases).
  cbn [BattleSimulator.turn_count BattleSimulator.max_turns BattleSimulator.hero
       BattleSimulator.enemy Enemy.take_damage fst Enemy.max_hp Enemy.current_hp].
  assert (Hh : Hero.attack h' = Hero.attack (BattleSimulator.hero s) /\
               Hero.max_hp h' = Hero.max_hp (BattleSimulator.hero s) /\
               Hero.current_hp h' <= Hero.current_hp (BattleSimulator.hero s)).
  { destruct Hcases as [(_ & _ & -> & _)|(_ & _ & d & rest & _ & _ & Hd)].
    - repeat split. lia.
    - destruct Hd as [(_ & -> & _)|(_ & -> & _)]; cbn; repeat split; lia. }
  repeat split; try tauto. lia.
Qed.

Lemma loop_body_total (s : BattleSimulator.t) (rng : RandomSource) :
  -990 <= Hero.attack (BattleSimulator.hero s) <= 990 ->
  exists broke s' rng',
    BattleSimulator.loop_body s rng = Done (broke, s', rng').
Proof.
  intros Hatk.
  destruct (attack_enemy_valid (BattleSimulator.hero s) rng Hatk)
    as (roll & rng1 & _ & Hdraw).
  unfold BattleSimulator.loop_body, BattleSimulator.increment_turn.
  cbv zeta. cbn [BattleSimulator.hero]. rewrite Hdraw. cbn [bind].
  destruct (Enemy.take_damage _ _) as [e' dealt].
  match goal with
  | |- context [if ?b then _ else _] => destruct b
  end.
  - do 3 eexists. reflexivity.
  - match goal with
    | |- context [BattleSimulator.enemy_turn ?s1 ?r] =>
        destruct (BattleSimulator.enemy_turn s1 r) as [[broke s'] rng']
    end.
    exists broke, s', rng'. reflexivity.
Qed.

(** ** The loop *)

Lemma while_loop_exit (fuel : nat) (s : BattleSimulator.t) (rng : RandomSource) :
  BattleSimulator.loop_condition s = false ->
  BattleSimulator.while_loop fuel s rng = Done (s, rng).
Proof.
  intros Hcond. destruct fuel; cbn [BattleSimulator.while_loop];
    rewrite Hcond; reflexivity.
Qed.

Lemma while_loop_step (fuel : nat) (s s1 : BattleSimulator.t)
      (rng rng1 : RandomSource) (broke : bool) :
  BattleSimulator.loop_condition s = true ->
  BattleSimulator.loop_body s rng = Done (broke, s1, rng1) ->
  BattleSimulator.while_loop (S fuel) s rng
  = if broke then Done (s1, rng1) else BattleSimulator.while_loop fuel s1 rng1.
Proof.
  intros Hcond Hbody. cbn [BattleSimulator.while_loop].
  rewrite Hcond, Hbody. reflexivity.
Qed.

(** An invariant of the loop body holds when the loop is left. *)
Lemma while_loop_invariant (I : BattleSimulator.t -> Prop) :
  (forall s rng broke s' rng',
      I s -> BattleSimulator.loop_condition s = true ->
      BattleSimulator.loop_body s rng = Done (broke, s', rng') -> I s') ->
  forall fuel s rng s' rng',
    I s -> BattleSimulator.while_loop fuel s rng = Done (s', rng') -> I s'.
Proof.
  intros Hstep fuel. induction fuel as [|fuel IH]; intros s rng s' rng' Hs Hloop.
  - cbn [BattleSimulator.while_loop] in Hloop.
    destruct (BattleSimulator.loop_condition s); [discriminate|].
    injection Hloop as <- <-. exact Hs.
  - destruct (BattleSimulator.loop_condition s) eqn:Hcond.
    + cbn [BattleSimulator.while_loop] in Hloop. rewrite Hcond in Hloop.
      destruct (BattleSimulator.loop_body s rng) as [[[broke s1] rng1]| |] eqn:Hbody;
        cbn [bind] in Hloop; try discriminate.
      pose proof (Hstep _ _ _ _ _ Hs Hcond Hbody) as Hs1.
      destruct broke.
      * injection Hloop as <- <-. exact Hs1.
      * apply (IH _ _ _ _ Hs1 Hloop).
    + rewrite (while_loop_exit _ _ _ Hcond) in Hloop.
      injection Hloop as <- <-. exact Hs.
Qed.

(** The loop returns as soon as the fuel covers the turns that remain, and
    with the same result for every larger fuel. *)
Lemma while_loop_terminates (n : nat) :
  forall (s : BattleSimulator.t) (rng : RandomSource),
    -990 <= Hero.attack (BattleSimulator.hero s) <= 990 ->
    BattleSimulator.max_turns s - BattleSimulator.turn_count s <= Z.of_nat n ->
    exists s' rng',
      (forall fuel, (n <= fuel)%nat ->
                    BattleSimulator.while_loop fuel s rng = Done (s', rng')) /\
      BattleSimulator.max_turns s' = BattleSimulator.max_turns s /\
      BattleSimulator.turn_count s <= BattleSimulator.turn_count s' /\
      (BattleSimulator.turn_count s <= BattleSimulator.max_turns s ->
       BattleSimulator.turn_count s' <= BattleSimulator.max_turns s).
Proof.
  induction n as [|n IH]; intros s rng Hatk Hleft.
  - exists s, rng. split; [|lia].
    intros fuel _. apply while_loop_exit.
    unfold BattleSimulator.loop_condition.
    destruct (Z.ltb_spec (BattleSimulator.turn_count s) (BattleSimulator.max_turns s));
      [lia|]. now rewrite andb_false_r.
  - destruct (BattleSimulator.loop_condition s) eqn:Hcond.
    + destruct (loop_body_total s rng Hatk) as (broke & s1 & rng1 & Hbody).
      destruct (loop_body_frame _ _ _ _ _ Hbody) as (Htc & Hmax & Hatk1 & _).
      assert (Hlt : BattleSimulator.turn_count s < BattleSimulator.max_turns s).
      { unfold BattleSimulator.loop_condition in Hcond.
        apply andb_prop in Hcond as [_ Hlt]. now apply Z.ltb_lt. }
      destruct broke.
      * exists s1, rng1. split; [|lia].
        intros [|fuel] Hfuel; [lia|].
        rewrite (while_loop_step _ _ _ _ _ _ Hcond Hbody). reflexivity.
      * destruct (IH s1 rng1 ltac:(lia) ltac:(lia))
          as (s' & rng' & Hrun & Hmax' & Hle & Hbound).
        exists s', rng'. split; [|lia].
        intros [|fuel] Hfuel; [lia|].
        rewrite (while_loop_step _ _ _ _ _ _ Hcond Hbody).
        apply Hrun. lia.
    + exists s, rng. split; [|lia].
      intros fuel _. apply while_loop_exit, Hcond.
Qed.

(** ** The whole battle *)

Lemma announce_frame (s : BattleSimulator.t) :
  BattleSimulator.hero (BattleSimulator.announce s) = BattleSimulator.hero s /\
  BattleSimulator.enemy (BattleSimulator.announce s) = BattleSimulator.enemy s /\
  BattleSimulator.turn_count (BattleSimulator.announce s)
  = BattleSimulator.turn_count s /\
  BattleSimulator.max_turns (BattleSimulator.announce s)
  = BattleSimulator.max_turns s.
Proof.
  unfold BattleSimulator.announce. cbv zeta.
  destruct (Hero.hardcore_mode (BattleSimulator.hero s)); repeat split.
Qed.

Lemma conclude_frame (s : BattleSimulator.t) :
  let s' := snd (BattleSimulator.conclude s) in
  BattleSimulator.hero s' = BattleSimulator.hero s /\
  BattleSimulator.enemy s' = BattleSimulator.enemy s /\
  BattleSimulator.turn_count s' = BattleSimulator.turn_count s /\
  BattleSimulator.max_turns s' = BattleSimulator.max_turns s.
Proof.
  unfold BattleSimulator.conclude.
  destruct (BattleSimulator.max_turns s <=? BattleSimulator.turn_count s);
    repeat split.
Qed.

Lemma valid_hero_attack (nm cls : string) (lvl : Z) (hardcore : bool) (h : Hero.t) :
  In cls Hero.VALID_CLASSES ->
  1 <= lvl <= 100 ->
  Hero.init nm cls lvl hardcore = Done h ->
  27 <= Hero.attack h <= 235.
Proof.
  intros Hcls Hl Hinit.
  destruct (valid_class_enumerated cls Hcls) as [c ->].
  rewrite (hero_init_valid nm c lvl hardcore Hl) in Hinit.
  injection Hinit as <-. cbn [Hero.attack].
  destruct c; cbn [baseAttack]; lia.
Qed.

Lemma simulate_battle_total (h : Hero.t) (e : Enemy.t) (rng : RandomSource) :
  -990 <= Hero.attack h <= 990 ->
  exists victory s' rng',
    (forall fuel, (50 <= fuel)%nat ->
       BattleSimulator.simulate_battle fuel (BattleSimulator.init h e) rng
       = Done (victory, s', rng')) /\
    0 <= BattleSimulator.turn_count s' <= 50 /\
    BattleSimulator.max_turns s' = 50.
Proof.
  intros Hatk.
  set (s0 := BattleSimulator.init h e).
  destruct (announce_frame s0) as (Hh & _ & Htc & Hmax).
  destruct (while_loop_terminates 50 (BattleSimulator.announce s0) rng)
    as (s1 & rng1 & Hrun & Hmax1 & Hle & Hbound).
  { rewrite Hh. exact Hatk. }
  { rewrite Htc, Hmax. cbn. lia. }
  rewrite Htc, Hmax in *. cbn [s0 BattleSimulator.init BattleSimulator.turn_count
                                  BattleSimulator.max_turns] in *.
  destruct (conclude_frame s1) as (_ & _ & Htc2 & Hmax2).
  exists (fst (BattleSimulator.conclude s1)), (snd (BattleSimulator.conclude s1)), rng1.
  split; [|split; [lia|congruence]].
  intros fuel Hfuel. unfold BattleSimulator.simulate_battle.
  fold s0. rewrite (Hrun fuel Hfuel). cbn [bind].
  destruct (BattleSimulator.conclude s1). reflexivity.
Qed.

(** C5: for a hero built from a valid class and a level of 1..100, any
    enemy and any random source, [simulate_battle] returns: one result is
    reached for every fuel of at least 50, no exception is raised, and the
    turn counter it ends with is at most 50, the value of [max_turns]. *)
Theorem C5_battle_terminates
  (nm cls : string) (lvl : Z) (hardcore : bool) (h : Hero.t) (e : Enemy.t)
  (rng : RandomSource) :
  In cls Hero.VALID_CLASSES ->
  1 <= lvl <= 100 ->
  Hero.init nm cls lvl hardcore = Done h ->
  exists victory s' rng',
    (forall fuel, (50 <= fuel)%nat ->
       BattleSimulator.simulate_battle fuel (BattleSimulator.init h e) rng
       = Done (victory, s', rng')) /\
    0 <= BattleSimulator.turn_count s' <= 50 /\
    BattleSimulator.max_turns s' = 50.
Proof.
  intros Hcls Hl Hinit.
  pose proof (valid_hero_attack _ _ _ _ _ Hcls Hl Hinit) as Hatk.
  apply simulate_battle_total. lia.
Qed.

Lemma C5_battle_terminates_witness :
  exists victory s' rng',
    BattleSimulator.simulate_battle 50
      (BattleSimulator.init (Hero.mk "A" "Warrior" 1 false 160 160 27 21 0.152%float)
                            (Enemy.mk 29 false "Dark Dragon" 448 448 78 39))
      (fun _ => 0%N)
    = Done (victory, s', rng') /\
    BattleSimulator.turn_count s' <= 50.
Proof.
  destruct (C5_battle_terminates "A" "Warrior" 1 false
              (Hero.mk "A" "Warrior" 1 false 160 160 27 21 0.152%float)
              (Enemy.mk 29 false "Dark Dragon" 448 448 78 39)
              (fun _ => 0%N))
    as (victory & s' & rng' & Hrun & Hturn & _).
  - simpl. auto.
  - lia.
  - reflexivity.
  - exists victory, s', rng'. split; [apply Hrun; lia|lia].
Defined.

(** Evaluates a battle on concrete combatants and draws and records its
    result as the equation [H]. *)
Ltac run_battle battle H :=
  let result := eval vm_compute in battle in
  assert (H : battle = result) by (vm_compute; reflexivity).

(** ** Health never goes up *)

Lemma health_not_increased_refl (s : BattleSimulator.t) : health_not_increased s s.
Proof.
  unfold health_not_increased. repeat split; lia.
Qed.

Lemma health_not_increased_trans (s1 s2 s3 : BattleSimulator.t) :
  health_not_increased s1 s2 -> health_not_increased s2 s3 ->
  health_not_increased s1 s3.
Proof.
  unfold health_not_increased. intros (? & ? & ? & ?) (? & ? & ? & ?).
  repeat split; lia || congruence.
Qed.

Lemma loop_body_health (s s' : BattleSimulator.t) (rng rng' : RandomSource)
      (broke : bool) :
  BattleSimulator.loop_body s rng = Done (broke, s', rng') ->
  health_not_increased s s'.
Proof.
  intros Hbody.
  destruct (loop_body_frame _ _ _ _ _ Hbody) as (_ & _ & _ & ? & ? & ? & ?).
  unfold health_not_increased. repeat split; lia || assumption.
Qed.

Lemma hero_init_full_health (nm cls : string) (lvl : Z) (hardcore : bool) (h : Hero.t) :
  Hero.init nm cls lvl hardcore = Done h -> Hero.current_hp h = Hero.max_hp h.
Proof.
  unfold Hero.init. intros Hinit.
  apply bind_Done_inv in Hinit as (hp & _ & Hinit).
  apply bind_Done_inv in Hinit as (atk & _ & Hinit).
  apply bind_Done_inv in Hinit as (def & _ & Hinit).
  apply bind_Done_inv in Hinit as (crit & _ & Hinit).
  injection Hinit as <-. reflexivity.
Qed.

Lemma enemy_init_full_health (hero_level : Z) (hardcore : bool)
      (rng rng' : RandomSource) (e : Enemy.t) :
  Enemy.init hero_level hardcore rng = Done (e, rng') ->
  Enemy.current_hp e = Enemy.max_hp e.
Proof.
  unfold Enemy.init. intros Hinit.
  destruct (random_randint (-2) 3 rng) as [offset rng1].
  destruct (Enemy._generate_name rng1) as [nm rng2]. cbv zeta in Hinit.
  apply bind_Done_inv in Hinit as (hp_f & _ & Hinit).
  apply bind_Done_inv in Hinit as (hp & _ & Hinit).
  apply bind_Done_inv in Hinit as (atk_f & _ & Hinit).
  apply bind_Done_inv in Hinit as (atk & _ & Hinit).
  injection Hinit as <- _. reflexivity.
Qed.

(** C7: in every battle that returns, neither combatant's currentHealth is
    higher at the end than at the start and maxHealth is unchanged, so
    currentHealth <= maxHealth is kept; the same holds across every single
    turn and every [take_damage], which lowers currentHealth strictly; both
    constructors start currentHealth at maxHealth; and currentHealth can end
    below zero (-28 for the enemy in [overkill_battle]). *)
Theorem C7_health_never_increases
  (fuel : nat) (s s' : BattleSimulator.t) (rng rng' : RandomSource) (victory : bool) :
  BattleSimulator.simulate_battle fuel s rng = Done (victory, s', rng') ->
  health_not_increased s s' /\
  (Hero.current_hp (BattleSimulator.hero s) <= Hero.max_hp (BattleSimulator.hero s) ->
   Hero.current_hp (BattleSimulator.hero s') <= Hero.max_hp (BattleSimulator.hero s')) /\
  (Enemy.current_hp (BattleSimulator.enemy s) <= Enemy.max_hp (BattleSimulator.enemy s) ->
   Enemy.current_hp (BattleSimulator.enemy s')
   <= Enemy.max_hp (BattleSimulator.enemy s')) /\
  (forall s1 s2 rng1 rng2 broke,
      BattleSimulator.loop_body s1 rng1 = Done (broke, s2, rng2) ->
      health_not_increased s1 s2) /\
  (forall h damage,
      Hero.current_hp (fst (Hero.take_damage h damage)) < Hero.current_hp h /\
      Hero.max_hp (fst (Hero.take_damage h damage)) = Hero.max_hp h) /\
  (forall e damage,
      Enemy.current_hp (fst (Enemy.take_damage e damage)) < Enemy.current_hp e /\
      Enemy.max_hp (fst (Enemy.take_damage e damage)) = Enemy.max_hp e) /\
  (forall nm cls lvl hardcore h,
      Hero.init nm cls lvl hardcore = Done h -> Hero.current_hp h = Hero.max_hp h) /\
  (forall hero_level hardcore rng0 rng1 e,
      Enemy.init hero_level hardcore rng0 = Done (e, rng1) ->
      Enemy.current_hp e = Enemy.max_hp e) /\
  (exists won final,
      overkill_battle = Done (won, final) /\
      Enemy.current_hp (BattleSimulator.enemy final) = -28 /\
      Enemy.is_alive (BattleSimulator.enemy final) = false).
Proof.
  intros Hrun.
  assert (Hmono : health_not_increased s s').
  { unfold BattleSimulator.simulate_battle in Hrun.
    apply bind_Done_inv in Hrun as ([s1 rng1] & Hloop & Hend).
    destruct (announce_frame s) as (Hh & He & _).
    assert (H0 : health_not_increased s (BattleSimulator.announce s)).
    { unfold health_not_increased. rewrite Hh, He. repeat split; lia. }
    assert (H1 : health_not_increased s s1).
    { revert Hloop.
      apply (while_loop_invariant (health_not_increased s)); [|exact H0].
      intros sa rnga broke sb rngb Hsa _ Hbody.
      apply (health_not_increased_trans _ _ _ Hsa), (loop_body_health _ _ _ _ _ Hbody). }
    destruct (conclude_frame s1) as (Hh2 & He2 & _).
    destruct (BattleSimulator.conclude s1) as [v s2].
    injection Hend as _ <- _. cbn [snd] in Hh2, He2.
    unfold health_not_increased in *. rewrite Hh2, He2. exact H1. }
  split; [exact Hmono|].
  destruct Hmono as (Hh & He & Hhm & Hem).
  split; [lia|]. split; [lia|].
  split; [intros; eapply loop_body_health; eassumption|].
  split; [intros h damage; cbn; split; [lia|reflexivity]|].
  split; [intros e damage; cbn; split; [lia|reflexivity]|].
  split; [apply hero_init_full_health|].
  split; [apply enemy_init_full_health|].
  remember overkill_battle as r eqn:Hr. vm_compute in Hr. subst r.
  do 2 eexists. split; [reflexivity|]. split; reflexivity.
Qed.

Lemma C7_health_never_increases_witness :
  exists s',
    overkill_battle = Done (true, s') /\
    Hero.current_hp (BattleSimulator.hero s') <= 160 /\
    Enemy.current_hp (BattleSimulator.enemy s') <= 132.
Proof.
  set (h := Hero.mk "A" "Warrior" 1 false 160 160 27 21 0.152%float).
  set (e := Enemy.mk (-1) true "Dark Dragon" 132 132 27 9).
  run_battle (BattleSimulator.simulate_battle 50 (BattleSimulator.init h e)
                                              (fun _ => 0%N)) Hrun.
  destruct (C7_health_never_increases _ _ _ _ _ _ Hrun) as ((Hh & He & _) & _).
  match type of Hrun with
  | _ = Done (_, ?final, _) => exists final
  end.
  split; [vm_compute; reflexivity|]. split; [exact Hh|exact He].
Defined.

(** ** The order of actions within a turn *)

Lemma split_app {A : Type} (l new after : list A) (entry : A) :
  forall before,
    l ++ new = before ++ entry :: after ->
    (exists mid, l = before ++ entry :: mid) \/
    (exists mid, before = l ++ mid /\ new = mid ++ entry :: after).
Proof.
  induction l as [|a l IH]; intros before Heq.
  - right. exists before. auto.
  - destruct before as [|b before]; cbn [app] in Heq.
    + injection Heq as -> _. left. exists l. reflexivity.
    + injection Heq as -> Heq.
      destruct (IH before Heq) as [[mid ->]|[mid [-> ->]]].
      * left. exists mid. reflexivity.
      * right. exists mid. auto.
Qed.

Lemma hero_first_quiet (l new : list LogEntry) :
  hero_first l ->
  Forall (fun entry => is_enemy_action (entry_message entry) = false) new ->
  hero_first (l ++ new).
Proof.
  intros Hl Hquiet before entry after Heq Hact.
  destruct (split_app _ _ _ _ _ Heq) as [[mid ->]|[mid [-> ->]]].
  - apply (Hl before entry mid eq_refl Hact).
  - rewrite Forall_forall in Hquiet.
    rewrite (Hquiet entry) in Hact; [discriminate|].
    apply in_elt.
Qed.

Lemma hero_first_block (l new : list LogEntry) (hit : LogEntry) :
  hero_first l ->
  is_hero_attack (entry_message hit) = true ->
  Forall (fun entry => entry_turn entry = entry_turn hit) new ->
  hero_first (l ++ hit :: new).
Proof.
  intros Hl Hhit Hturn before entry after Heq Hact.
  destruct (split_app _ _ _ _ _ Heq) as [[mid ->]|[mid [-> Hnew]]].
  - apply (Hl before entry mid eq_refl Hact).
  - destruct mid as [|first mid]; cbn [app] in Hnew.
    + injection Hnew as <- _.
      destruct (entry_message hit); discriminate.
    + injection Hnew as <- ->.
      exists hit. split; [apply in_elt|]. split; [exact Hhit|].
      rewrite Forall_forall in Hturn. symmetry. apply Hturn, in_elt.
Qed.

Lemma no_action_when_defeated_block (l new : list LogEntry) (turn : Z) :
  no_action_when_defeated l ->
  Forall (fun entry => entry_turn entry < turn) l ->
  Forall (fun entry => entry_turn entry = turn) new ->
  Forall (fun entry => is_enemy_defeated (entry_message entry) = false) new \/
  Forall (fun entry => is_enemy_action (entry_message entry) = false) new ->
  no_action_when_defeated (l ++ new).
Proof.
  intros Hl Hold Hnew Hone defeat action Hd Ha Hdefeat Haction.
  rewrite Forall_forall in Hold, Hnew.
  apply in_app_or in Hd. apply in_app_or in Ha.
  destruct Hd as [Hd|Hd], Ha as [Ha|Ha].
  - apply (Hl _ _ Hd Ha Hdefeat Haction).
  - specialize (Hold _ Hd). specialize (Hnew _ Ha). lia.
  - specialize (Hold _ Ha). specialize (Hnew _ Hd). lia.
  - destruct Hone as [Hone|Hone]; rewrite Forall_forall in Hone.
    + rewrite (Hone _ Hd) in Hdefeat. discriminate.
    + rewrite (Hone _ Ha) in Haction. discriminate.
Qed.

Lemma no_action_when_defeated_quiet (l new : list LogEntry) :
  no_action_when_defeated l ->
  Forall (fun entry => is_enemy_defeated (entry_message entry) = false
                       /\ is_enemy_action (entry_message entry) = false) new ->
  no_action_when_defeated (l ++ new).
Proof.
  intros Hl Hquiet defeat action Hd Ha Hdefeat Haction.
  rewrite Forall_forall in Hquiet.
  apply in_app_or in Hd. apply in_app_or in Ha.
  destruct Hd as [Hd|Hd]; [|destruct (Hquiet _ Hd); congruence].
  destruct Ha as [Ha|Ha]; [|destruct (Hquiet _ Ha); congruence].
  apply (Hl _ _ Hd Ha Hdefeat Haction).
Qed.

Lemma loop_body_log_in_order (s s' : BattleSimulator.t) (rng rng' : RandomSource)
      (broke : bool) :
  log_in_order s ->
  BattleSimulator.loop_body s rng = Done (broke, s', rng') ->
  log_in_order s'.
Proof.
  intros (Hfirst & Hnone & Hturns) Hbody.
  destruct (loop_body_shape _ _ _ _ _ Hbody)
    as (damage & critical & rng1 & h' & new & _ & -> & Hcases).
  unfold log_in_order.
  cbn [BattleSimulator.battle_log BattleSimulator.turn_count].
  set (turn := BattleSimulator.turn_count s + 1).
  assert (Hnew : Forall (fun entry => entry_turn entry = turn) new /\
                 (Forall (fun entry => is_enemy_defeated (entry_message entry) = false) new
                  \/ Forall (fun entry => is_enemy_action (entry_message entry) = false) new)).
  { destruct Hcases as [(_ & _ & _ & _ & ->)|(_ & _ & d & rest & _ & Hrest & Hd)].
    - split; [|right]; repeat constructor.
    - assert (Forall (fun entry => entry_turn entry = turn) rest /\
              Forall (fun entry => is_enemy_defeated (entry_message entry) = false) rest)
        as [Hr1 Hr2].
      { split; (eapply Forall_impl; [|exact Hrest]); intros entry Hn; apply Hn. }
      destruct Hd as [(_ & _ & ->)|(_ & _ & ->)];
        (split; [|left]); constructor; auto. }
  destruct Hnew as [Hturn Hone].
  split; [|split].
  - apply hero_first_block; [exact Hfirst|reflexivity|].
    constructor; [reflexivity|exact Hturn].
  - apply (no_action_when_defeated_block _ _ turn); [exact Hnone| | |].
    + eapply Forall_impl; [|exact Hturns]. cbv beta. intros entry Hle. lia.
    + repeat (constructor; [reflexivity|]). exact Hturn.
    + destruct Hone as [Hone|Hone]; [left|right];
        repeat (constructor; [reflexivity|]); exact Hone.
  - apply Forall_app. split.
    + eapply Forall_impl; [|exact Hturns]. cbv beta. intros entry Hle. lia.
    + repeat (constructor; [cbn; lia|]).
      eapply Forall_impl; [|exact Hturn]. cbv beta. intros entry ->. lia.
Qed.

Lemma announce_log (s : BattleSimulator.t) :
  exists new,
    BattleSimulator.battle_log (BattleSimulator.announce s)
    = BattleSimulator.battle_log s ++ new /\
    Forall (narrates (BattleSimulator.turn_count s)) new.
Proof.
  destruct s as [h e log turn ceiling]. unfold BattleSimulator.announce.
  cbv beta iota zeta delta
      [BattleSimulator.log_event BattleSimulator.hero BattleSimulator.enemy
       BattleSimulator.battle_log BattleSimulator.turn_count
       BattleSimulator.max_turns].
  destruct (Hero.hardcore_mode h);
    cbv beta iota; rewrite <- !app_assoc; cbn [app];
    eexists; (split; [reflexivity|]);
    repeat (constructor; [repeat split|]); constructor.
Qed.

Lemma narrates_quiet (turn : Z) (new : list LogEntry) :
  Forall (narrates turn) new ->
  Forall (fun entry => entry_turn entry = turn) new /\
  Forall (fun entry => is_enemy_action (entry_message entry) = false) new /\
  Forall (fun entry => is_enemy_defeated (entry_message entry) = false
                       /\ is_enemy_action (entry_message entry) = false) new.
Proof.
  intros Hnew.
  repeat split; (eapply Forall_impl; [|exact Hnew]);
    intros entry (? & ? & ? & ?); auto.
Qed.

Lemma announce_log_in_order (h : Hero.t) (e : Enemy.t) :
  log_in_order (BattleSimulator.announce (BattleSimulator.init h e)).
Proof.
  assert (Hempty : hero_first [] /\ no_action_when_defeated []).
  { split.
    - intros [|? ?] entry after Heq; discriminate.
    - intros defeat action []. }
  destruct Hempty as [Hfirst Hnone].
  destruct (announce_log (BattleSimulator.init h e)) as (new & Hlog & Hnew).
  destruct (announce_frame (BattleSimulator.init h e)) as (_ & _ & Hturn & _).
  destruct (narrates_quiet _ _ Hnew) as (Hturns & Hquiet & Hboth).
  unfold log_in_order. rewrite Hlog, Hturn.
  cbn [BattleSimulator.init BattleSimulator.battle_log BattleSimulator.turn_count
       app] in *.
  split; [|split].
  - apply (hero_first_quiet [] new Hfirst Hquiet).
  - apply (no_action_when_defeated_quiet [] new Hnone Hboth).
  - eapply Forall_impl; [|exact Hturns]. cbv beta. intros entry ->. lia.
Qed.

Lemma conclude_log_in_order (s : BattleSimulator.t) :
  log_in_order s -> log_in_order (snd (BattleSimulator.conclude s)).
Proof.
  intros (Hfirst & Hnone & Hturns).
  unfold BattleSimulator.conclude, log_in_order.
  destruct (BattleSimulator.max_turns s <=? BattleSimulator.turn_count s);
    cbn [snd BattleSimulator.log_event BattleSimulator.battle_log
         BattleSimulator.turn_count];
    (split; [|split]).
  all: try (apply hero_first_quiet; [exact Hfirst|repeat constructor]).
  all: try (apply no_action_when_defeated_quiet; [exact Hnone|repeat constructor]).
  all: apply Forall_app; (split; [exact Hturns|]); repeat constructor; cbn; lia.
Qed.

(** C6: in every turn the hero's attack is resolved and logged before
    anything the enemy does, and when that hit leaves the enemy's
    currentHealth at 0 or below, the turn ends at once: the hero is
    untouched, no draw is made for the enemy, and the lines of the turn are
    the hit, the enemy's health and the enemy's defeat.  In the log of a
    whole battle each enemy action follows a hero attack of its turn, and no
    enemy action carries the turn number of the enemy's defeat. *)
Theorem C6_hero_strikes_first
  (fuel : nat) (h : Hero.t) (e : Enemy.t) (rng rng' : RandomSource)
  (victory : bool) (s' : BattleSimulator.t) :
  BattleSimulator.simulate_battle fuel (BattleSimulator.init h e) rng
  = Done (victory, s', rng') ->
  hero_first (BattleSimulator.battle_log s') /\
  no_action_when_defeated (BattleSimulator.battle_log s') /\
  (forall s1 s2 rng1 rng2 broke,
      BattleSimulator.loop_body s1 rng1 = Done (broke, s2, rng2) ->
      let turn := BattleSimulator.turn_count s1 + 1 in
      exists damage critical rng_mid after_hit,
        Hero.attack_enemy (BattleSimulator.hero s1) rng1
        = Done (damage, critical, rng_mid) /\
        BattleSimulator.enemy s2
        = fst (Enemy.take_damage (BattleSimulator.enemy s1) damage) /\
        BattleSimulator.battle_log s2
        = BattleSimulator.battle_log s1
          ++ mkEntry turn
               (HeroAttacks (Hero.name (BattleSimulator.hero s1)) damage
                  (spec_actualDamage damage
                     (Enemy.defense (BattleSimulator.enemy s1))) critical)
          :: mkEntry turn
               (EnemyHP (Z.max 0 (Enemy.current_hp (BattleSimulator.enemy s2)))
                        (Enemy.max_hp (BattleSimulator.enemy s1)))
          :: after_hit /\
        (Enemy.current_hp (BattleSimulator.enemy s2) <= 0 ->
         broke = true /\
         BattleSimulator.hero s2 = BattleSimulator.hero s1 /\
         rng2 = rng_mid /\
         after_hit
         = [mkEntry turn (EnemyDefeated (Enemy.name (BattleSimulator.enemy s1)))]) /\
        (0 < Enemy.current_hp (BattleSimulator.enemy s2) ->
         exists enemy_damage,
           Enemy.attack_hero (BattleSimulator.enemy s2) rng_mid
           = (enemy_damage, rng2))).
Proof.
  intros Hrun.
  assert (Hlog : log_in_order s').
  { unfold BattleSimulator.simulate_battle in Hrun.
    apply bind_Done_inv in Hrun as ([s1 rng1] & Hloop & Hend).
    assert (H1 : log_in_order s1).
    { revert Hloop.
      apply (while_loop_invariant log_in_order); [|apply announce_log_in_order].
      intros sa rnga broke sb rngb Hsa _ Hbody.
      apply (loop_body_log_in_order _ _ _ _ _ Hsa Hbody). }
    pose proof (conclude_log_in_order s1 H1) as H2.
    destruct (BattleSimulator.conclude s1) as [v s2].
    injection Hend as _ <- _. exact H2. }
  destruct Hlog as (Hfirst & Hnone & _).
  split; [exact Hfirst|]. split; [exact Hnone|].
  intros s1 s2 rng1 rng2 broke Hbody turn.
  destruct (loop_body_shape _ _ _ _ _ Hbody)
    as (damage & critical & rng_mid & h' & new & Hhit & -> & Hcases).
  exists damage, critical, rng_mid, new.
  cbn [BattleSimulator.enemy BattleSimulator.hero BattleSimulator.battle_log].
  split; [exact Hhit|]. split; [reflexivity|]. split; [reflexivity|].
  unfold Enemy.is_alive in Hcases. split.
  - intros Hdead.
    destruct Hcases as [(_ & -> & -> & -> & ->)|(Halive & _)]; [auto|].
    apply Z.ltb_lt in Halive. lia.
  - intros Halive.
    destruct Hcases as [(Hdead & _)|(_ & _ & d & rest & Hdraw & _)].
    + apply Z.ltb_ge in Hdead. lia.
    + exists d. exact Hdraw.
Qed.

Lemma C6_hero_strikes_first_witness :
  exists s',
    overkill_battle = Done (true, s') /\
    hero_first (BattleSimulator.battle_log s') /\
    no_action_when_defeated (BattleSimulator.battle_log s').
Proof.
  set (h := Hero.mk "A" "Warrior" 1 false 160 160 27 21 0.152%float).
  set (e := Enemy.mk (-1) true "Dark Dragon" 132 132 27 9).
  run_battle (BattleSimulator.simulate_battle 50 (BattleSimulator.init h e)
                                              (fun _ => 0%N)) Hrun.
  destruct (C6_hero_strikes_first _ _ _ _ _ _ _ Hrun) as (Hfirst & Hnone & _).
  match type of Hrun with
  | _ = Done (_, ?final, _) => exists final
  end.
  split; [vm_compute; reflexivity|]. split; [exact Hfirst|exact Hnone].
Defined.

(** ** Validation of the arguments *)

Lemma str_in_In (x : string) (l : list string) : str_in x l = true <-> In x l.
Proof.
  unfold str_in. rewrite existsb_exists. split.
  - intros (y & Hy & Heq). apply String.eqb_eq in Heq. now subst.
  - intros Hin. exists x. split; [exact Hin|apply String.eqb_refl].
Qed.

Lemma hero_init_unknown_class (nm cls : string) (lvl : Z) (hardcore : bool) :
  ~ In cls Hero.VALID_CLASSES ->
  Hero.init nm cls lvl hardcore = Raised (KeyError cls).
Proof.
  intros Hout. unfold Hero.init, Hero._calculate_max_hp, Hero.base_hp.
  cbn [dict_get].
  destruct (String.eqb_spec "Warrior" cls) as [<-|_]; [elim Hout; simpl; auto|].
  destruct (String.eqb_spec "Mage" cls) as [<-|_]; [elim Hout; simpl; auto|].
  destruct (String.eqb_spec "Rogue" cls) as [<-|_]; [elim Hout; simpl; auto|].
  reflexivity.
Qed.

(** C8: [validate_arguments] on the class and the level.  With a class
    outside the enumerated set it fails with a [ValueError]: the one about
    the class when the level is in range, the one about the level otherwise,
    since the level is tested first.  With a level outside 1..100 it fails
    with the [ValueError] about the level.  With a valid class and a level
    in range it raises neither of the two: it returns when the battle date
    parses, and the only error it can raise is the one about the date. *)
Theorem C8_validation (strptime_ok : string -> bool) (args : Args) :
  (~ In (hero_class args) Hero.VALID_CLASSES ->
   (exists msg, validate_arguments strptime_ok args = Raised (ValueError msg)) /\
   (1 <= level args <= 100 ->
    validate_arguments strptime_ok args
    = Raised (ValueError (HeroClassMustBeOneOf (hero_class args))))) /\
  (~ 1 <= level args <= 100 ->
   validate_arguments strptime_ok args
   = Raised (ValueError (LevelMustBeBetween (level args)))) /\
  (In (hero_class args) Hero.VALID_CLASSES ->
   1 <= level args <= 100 ->
   (strptime_ok (battle_date args) = true ->
    validate_arguments strptime_ok args = Done tt) /\
   (forall e, validate_arguments strptime_ok args = Raised e ->
              e = ValueError (BattleDateMustBeInFormat (battle_date args)))).
Proof.
  unfold validate_arguments.
  split; [|split].
  - intros Hout.
    assert (Hin : str_in (hero_class args) Hero.VALID_CLASSES = false).
    { destruct (str_in (hero_class args) Hero.VALID_CLASSES) eqn:Hin; [|reflexivity].
      apply str_in_In in Hin. contradiction. }
    rewrite Hin. cbn [negb]. split.
    + destruct ((level args <? 1) || (100 <? level args)); eexists; reflexivity.
    + intros Hl.
      destruct (Z.ltb_spec (level args) 1); [lia|].
      destruct (Z.ltb_spec 100 (level args)); [lia|]. reflexivity.
  - intros Hout.
    destruct (Z.ltb_spec (level args) 1); [reflexivity|].
    destruct (Z.ltb_spec 100 (level args)); [reflexivity|lia].
  - intros Hin Hl.
    destruct (Z.ltb_spec (level args) 1); [lia|].
    destruct (Z.ltb_spec 100 (level args)); [lia|]. cbn [orb].
    apply str_in_In in Hin. rewrite Hin. cbn [negb].
    destruct (strptime_ok (battle_date args)); cbn [negb]; split.
    + reflexivity.
    + discriminate.
    + discriminate.
    + intros e He. injection He as <-. reflexivity.
Qed.

Lemma C8_validation_witness :
  validate_arguments (fun _ => true) (mkArgs "A" "Bard" 7 false "2024-01-01")
  = Raised (ValueError (HeroClassMustBeOneOf "Bard")) /\
  validate_arguments (fun _ => true) (mkArgs "A" "Rogue" 101 false "2024-01-01")
  = Raised (ValueError (LevelMustBeBetween 101)) /\
  validate_arguments (fun _ => true) (mkArgs "A" "Rogue" 7 false "2024-01-01")
  = Done tt.
Proof.
  split; [|split].
  - apply (C8_validation (fun _ => true) (mkArgs "A" "Bard" 7 false "2024-01-01")).
    + cbn. intros [H|[H|[H|[]]]]; discriminate.
    + cbn. lia.
  - apply (C8_validation (fun _ => true) (mkArgs "A" "Rogue" 101 false "2024-01-01")).
    cbn. lia.
  - apply (C8_validation (fun _ => true) (mkArgs "A" "Rogue" 7 false "2024-01-01")).
    + cbn. auto.
    + cbn. lia.
    + reflexivity.
Defined.

(** ** The verdict *)

(** A kill on any turn below the ceiling is reported as a victory. *)
Lemma loop_body_defeat_is_final (s s' : BattleSimulator.t) (rng rng' : RandomSource)
      (broke : bool) :
  defeat_is_final s ->
  BattleSimulator.loop_condition s = true ->
  BattleSimulator.loop_body s rng = Done (broke, s', rng') ->
  defeat_is_final s'.
Proof.
  intros Hs Hcond Hbody.
  unfold BattleSimulator.loop_condition in Hcond.
  apply andb_prop in Hcond as [Hcond _].
  apply andb_prop in Hcond as [Hhero Henemy].
  destruct (loop_body_shape _ _ _ _ _ Hbody)
    as (damage & critical & rng1 & h' & new & _ & -> & Hcases).
  intros entry Hin Hdefeat.
  cbn [BattleSimulator.battle_log BattleSimulator.turn_count BattleSimulator.hero
       BattleSimulator.enemy] in *.
  apply in_app_or in Hin. destruct Hin as [Hin|Hin].
  { destruct (Hs entry Hin Hdefeat) as (_ & _ & Hdead). congruence. }
  destruct Hin as [<-|[<-|Hin]]; try discriminate.
  destruct Hcases as [(Halive & _ & -> & _ & ->)|(_ & _ & d & rest & _ & Hrest & Hd)].
  - destruct Hin as [<-|[]]. auto.
  - destruct (narrates_quiet _ _ Hrest) as (_ & _ & Hquiet).
    rewrite Forall_forall in Hquiet.
    destruct Hd as [(_ & _ & ->)|(_ & _ & ->)];
      (destruct Hin as [<-|Hin]; [discriminate|]);
      destruct (Hquiet _ Hin); congruence.
Qed.

Lemma kill_below_ceiling_is_victory
      (fuel : nat) (h : Hero.t) (e : Enemy.t) (rng rng' : RandomSource)
      (victory : bool) (s' : BattleSimulator.t) (defeat : LogEntry) :
  BattleSimulator.simulate_battle fuel (BattleSimulator.init h e) rng
  = Done (victory, s', rng') ->
  In defeat (BattleSimulator.battle_log s') ->
  is_enemy_defeated (entry_message defeat) = true ->
  entry_turn defeat < 50 ->
  victory = true /\
  In (mkEntry (entry_turn defeat) (BattleEnd true)) (BattleSimulator.battle_log s').
Proof.
  intros Hrun Hin Hdefeat Hturn.
  unfold BattleSimulator.simulate_battle in Hrun.
  apply bind_Done_inv in Hrun as ([s1 rng1] & Hloop & Hend).
  set (s0 := BattleSimulator.init h e) in *.
  assert (H0 : defeat_is_final (BattleSimulator.announce s0)
               /\ BattleSimulator.max_turns (BattleSimulator.announce s0) = 50).
  { destruct (announce_log s0) as (new & Hlog & Hnew).
    destruct (announce_frame s0) as (_ & _ & _ & Hmax).
    split; [|rewrite Hmax; reflexivity].
    intros entry Hentry Hd. rewrite Hlog in Hentry.
    cbn [s0 BattleSimulator.init BattleSimulator.battle_log app] in Hentry.
    destruct (narrates_quiet _ _ Hnew) as (_ & _ & Hquiet).
    rewrite Forall_forall in Hquiet. destruct (Hquiet _ Hentry). congruence. }
  assert (H1 : defeat_is_final s1 /\ BattleSimulator.max_turns s1 = 50).
  { revert Hloop.
    apply (while_loop_invariant
             (fun s => defeat_is_final s /\ BattleSimulator.max_turns s = 50));
      [|exact H0].
    intros sa rnga broke sb rngb [Hsa Hmax] Hcond Hbody.
    split; [apply (loop_body_defeat_is_final _ _ _ _ _ Hsa Hcond Hbody)|].
    destruct (loop_body_frame _ _ _ _ _ Hbody) as (_ & -> & _). exact Hmax. }
  destruct H1 as [Hfinal Hmax].
  unfold BattleSimulator.conclude in Hend. rewrite Hmax in Hend.
  assert (Hold : In defeat (BattleSimulator.battle_log s1)).
  { destruct (50 <=? BattleSimulator.turn_count s1);
      injection Hend as _ <- _;
      cbn [BattleSimulator.log_event BattleSimulator.battle_log] in Hin;
      apply in_app_or in Hin; destruct Hin as [Hin|[<-|[]]];
      try exact Hin; discriminate. }
  destruct (Hfinal defeat Hold Hdefeat) as (Hnow & Halive & _).
  destruct (Z.leb_spec 50 (BattleSimulator.turn_count s1)); [lia|].
  rewrite Halive in Hend. injection Hend as <- <- _.
  split; [reflexivity|].
  cbn [BattleSimulator.log_event BattleSimulator.battle_log].
  apply in_or_app. right. rewrite Hnow. left. reflexivity.
Qed.

(** When the enemy is built from the hero's own level, as [main] does, the
    enemy cannot outlast 15 hits: the loop never reaches the ceiling. *)
Lemma loop_body_worn_down (h : Hero.t) (e : Enemy.t) (s s' : BattleSimulator.t)
      (rng rng' : RandomSource) (broke : bool) :
  -990 <= Hero.attack h <= 990 ->
  0 <= Enemy.defense e ->
  1 <= least_hit h e ->
  Enemy.max_hp e <= 15 * least_hit h e ->
  worn_down h e s ->
  BattleSimulator.loop_condition s = true ->
  BattleSimulator.loop_body s rng = Done (broke, s', rng') ->
  worn_down h e s'.
Proof.
  intros Hatk Hdef Hleast Hmax (Ha & Hd & Hceil & Hturn & Hworn) Hcond Hbody.
  unfold BattleSimulator.loop_condition in Hcond.
  apply andb_prop in Hcond as [Hcond _].
  apply andb_prop in Hcond as [_ Halive].
  unfold Enemy.is_alive in Halive. apply Z.ltb_lt in Halive.
  destruct (loop_body_shape _ _ _ _ _ Hbody)
    as (damage & critical & rng1 & h' & new & Hhit & -> & Hcases).
  destruct (attack_enemy_valid (BattleSimulator.hero s) rng ltac:(lia))
    as (roll & rng2 & Hroll & Hvalid).
  assert (Hdamage : damage
                    = if bernoulli (Hero.critical_chance (BattleSimulator.hero s)) rng
                      then 2 * (Hero.attack (BattleSimulator.hero s) + roll)
                      else Hero.attack (BattleSimulator.hero s) + roll)
    by congruence.
  assert (Hstrong : Hero.attack h - 5 <= damage).
  { rewrite Hdamage, Ha. unfold least_hit in Hleast.
    destruct (bernoulli _ _); Z.div_mod_to_equations; lia. }
  clear Hdamage Hhit Hvalid.
  assert (Hh' : Hero.attack h' = Hero.attack h).
  { destruct Hcases as [(_ & _ & -> & _)|(_ & _ & d & rest & _ & _ & Hcase)];
      [exact Ha|].
    destruct Hcase as [(_ & -> & _)|(_ & -> & _)]; exact Ha. }
  unfold worn_down.
  cbn [BattleSimulator.hero BattleSimulator.enemy BattleSimulator.turn_count
       BattleSimulator.max_turns Enemy.take_damage fst Enemy.defense
       Enemy.current_hp].
  rewrite Hd. unfold least_hit in *.
  set (least := Hero.attack h - 5 - Enemy.defense e / 2) in *.
  assert (Hlt : BattleSimulator.turn_count s < 15) by nia.
  repeat split; assumption || lia.
Qed.

Lemma main_matchup (c : HeroClass) (lvl offset : Z) (hardcore : bool) :
  1 <= lvl <= 100 ->
  -2 <= offset <= 3 ->
  let least := baseAttack c + lvl * 2 - 5 - (10 + (lvl + offset)) / 2 in
  1 <= least /\
  spec_scaled (100 + (lvl + offset) * 12) hardcore <= 15 * least.
Proof.
  intros Hl Hoff. cbv zeta. unfold spec_scaled.
  destruct c, hardcore; cbn [baseAttack]; Z.div_mod_to_equations; lia.
Qed.

Lemma main_battle_never_times_out
      (nm cls : string) (lvl : Z) (hardcore : bool) (rng0 rng : RandomSource)
      (h : Hero.t) (e : Enemy.t) :
  In cls Hero.VALID_CLASSES ->
  1 <= lvl <= 100 ->
  Hero.init nm cls lvl hardcore = Done h ->
  Enemy.init lvl hardcore rng0 = Done (e, rng) ->
  exists victory s' rng',
    (forall fuel, (50 <= fuel)%nat ->
       BattleSimulator.simulate_battle fuel (BattleSimulator.init h e) rng
       = Done (victory, s', rng')) /\
    BattleSimulator.turn_count s' <= 15 /\
    victory = Hero.is_alive (BattleSimulator.hero s') /\
    exists earlier,
      BattleSimulator.battle_log s'
      = earlier ++ [mkEntry (BattleSimulator.turn_count s') (BattleEnd victory)].
Proof.
  intros Hcls Hl Hhero Henemy.
  pose proof (valid_hero_attack _ _ _ _ _ Hcls Hl Hhero) as Hatk.
  destruct (valid_class_enumerated cls Hcls) as [c ->].
  rewrite (hero_init_valid nm c lvl hardcore Hl) in Hhero.
  pose proof (enemy_init_valid lvl hardcore rng0 Hl) as Hvalid.
  pose proof (randint_range (-2) 3 rng0 ltac:(lia)) as Hoff.
  cbv zeta in Hvalid. rewrite Henemy in Hvalid.
  destruct (random_randint (-2) 3 rng0) as [offset rng1].
  cbn [fst snd] in Hvalid, Hoff.
  destruct (main_matchup c lvl offset hardcore Hl Hoff) as [Hleast Hmax].
  assert (He : Enemy.defense e = 10 + (lvl + offset) /\
               Enemy.max_hp e = spec_scaled (100 + (lvl + offset) * 12) hardcore /\
               Enemy.current_hp e = Enemy.max_hp e).
  { injection Hvalid as -> _. repeat split. }
  destruct He as (Hdef & Hhp & Hfull).
  assert (Hh : Hero.attack h = baseAttack c + lvl * 2).
  { injection Hhero as <-. reflexivity. }
  assert (Hleast' : 1 <= least_hit h e)
    by (unfold least_hit; rewrite Hh, Hdef; exact Hleast).
  assert (Hmax' : Enemy.max_hp e <= 15 * least_hit h e)
    by (unfold least_hit; rewrite Hh, Hdef, Hhp; exact Hmax).
  destruct (simulate_battle_total h e rng ltac:(lia))
    as (victory & s' & rng' & Hall & _).
  exists victory, s', rng'. split; [exact Hall|].
  pose proof (Hall 50%nat (le_n 50)) as Hrun.
  unfold BattleSimulator.simulate_battle in Hrun.
  apply bind_Done_inv in Hrun as ([s1 rng2] & Hloop & Hend).
  set (s0 := BattleSimulator.init h e) in *.
  assert (H0 : worn_down h e (BattleSimulator.announce s0)).
  { destruct (announce_frame s0) as (Hh0 & He0 & Htc0 & Hmax0).
    unfold worn_down. rewrite Hh0, He0, Htc0, Hmax0.
    cbn [s0 BattleSimulator.init BattleSimulator.hero BattleSimulator.enemy
         BattleSimulator.turn_count BattleSimulator.max_turns].
    repeat split; lia. }
  assert (H1 : worn_down h e s1).
  { revert Hloop. apply (while_loop_invariant (worn_down h e)); [|exact H0].
    intros sa rnga broke sb rngb Hsa Hcond Hbody.
    apply (loop_body_worn_down h e sa sb rnga rngb broke); auto; lia. }
  destruct H1 as (_ & _ & Hceil & Hturn & _).
  unfold BattleSimulator.conclude in Hend. rewrite Hceil in Hend.
  destruct (Z.leb_spec 50 (BattleSimulator.turn_count s1)); [lia|].
  injection Hend as <- <- _.
  cbn [BattleSimulator.log_event BattleSimulator.turn_count BattleSimulator.hero
       BattleSimulator.battle_log].
  split; [lia|]. split; [reflexivity|].
  exists (BattleSimulator.battle_log s1). reflexivity.
Qed.


(** What [simulate_battle] does at the ceiling, for combatants paired by
    hand.  In [turn50_battle] the hero's hit of turn 50 takes the enemy from
    7 HP to -2, the enemy's defeat is logged and the loop is left by
    [break]; the test that follows the loop then sees the counter at 50,
    logs the timeout and returns False, with the hero alive at full
    health.  No enemy built from the hero's own level lives that long
    ([main_battle_never_times_out]). *)
Lemma kill_on_turn_50_is_reported_as_timeout :
  exists s',
    (forall fuel, (50 <= fuel)%nat -> turn50_battle fuel = Done (false, s')) /\
    BattleSimulator.turn_count s' = 50 /\
    BattleSimulator.max_turns s' = 50 /\
    Enemy.current_hp (BattleSimulator.enemy s') = -2 /\
    Enemy.is_alive (BattleSimulator.enemy s') = false /\
    Hero.current_hp (BattleSimulator.hero s') = 160 /\
    Hero.is_alive (BattleSimulator.hero s') = true /\
    exists earlier,
      BattleSimulator.battle_log s'
      = earlier ++ [mkEntry 50 (HeroAttacks "A" 28 9 false);
                    mkEntry 50 (EnemyHP 0 448);
                    mkEntry 50 (EnemyDefeated "Dark Dragon");
                    mkEntry 50 BattleTimeout].
Proof.
  set (h0 := Hero.mk "A" "Warrior" 1 false 160 160 27 21 0.152%float).
  set (e0 := Enemy.mk 29 false "Dark Dragon" 448 448 78 39).
  set (r0 := (fun i => turn50_draws (S (S (S i)))) : RandomSource).
  assert (Hh : Hero.init "A" "Warrior" 1 false = Done h0) by reflexivity.
  assert (He : Enemy.init 27 false turn50_draws = Done (e0, r0)) by reflexivity.
  destruct (simulate_battle_total h0 e0 r0 ltac:(cbn; lia))
    as (victory & s' & rng' & Hall & _).
  pose proof (Hall 50%nat (le_n 50)) as H50.
  vm_compute in H50. injection H50 as <- <- <-.
  eexists. split.
  - intros fuel Hfuel. unfold turn50_battle.
    rewrite Hh. cbn [bind]. rewrite He. cbn [bind].
    rewrite (Hall fuel Hfuel). reflexivity.
  - cbn [BattleSimulator.turn_count BattleSimulator.max_turns BattleSimulator.enemy
         BattleSimulator.hero Enemy.current_hp Hero.current_hp
         BattleSimulator.battle_log].
    repeat (split; [reflexivity|]).
    match goal with
    | |- exists earlier, ?l = _ => exists (firstn 250 l)
    end.
    reflexivity.
Qed.

(** * Further properties of the code *)

(** ** Hero stats as functions of the level *)

Lemma criticalChance_grows (c : HeroClass) (l l' : Z) :
  1 <= l -> l < l' -> l' <= 100 ->
  PrimFloat.ltb (float_criticalChance c l) (float_criticalChance c l') = true.
Proof.
  intros Hl Hlt Hl'.
  assert (Hall : forallb
            (fun a => forallb
               (fun b => PrimFloat.ltb (float_criticalChance c a)
                                       (float_criticalChance c b))
               (zrange (a + 1) 100))
            (zrange 1 100) = true)
    by (destruct c; vm_compute; reflexivity).
  pose proof (forallb_zrange _ _ _ Hall l ltac:(lia)) as Hrow.
  cbv beta in Hrow.
  apply (forallb_zrange _ _ _ Hrow l'). lia.
Qed.

(** X1: for one class, a hero of a higher level (both in 1..100) has a
    higher maxHealth, attack and defense and a strictly higher
    criticalChance, whatever the names and the hardcore flags. *)
Theorem X1_hero_stats_grow_with_level
  (nm nm' cls : string) (l l' : Z) (hardcore hardcore' : bool) (h h' : Hero.t) :
  In cls Hero.VALID_CLASSES ->
  1 <= l -> l < l' -> l' <= 100 ->
  Hero.init nm cls l hardcore = Done h ->
  Hero.init nm' cls l' hardcore' = Done h' ->
  Hero.max_hp h < Hero.max_hp h' /\
  Hero.attack h < Hero.attack h' /\
  Hero.defense h < Hero.defense h' /\
  PrimFloat.ltb (Hero.critical_chance h) (Hero.critical_chance h') = true.
Proof.
  intros Hcls Hl Hlt Hl' Hh Hh'.
  destruct (valid_class_enumerated cls Hcls) as [c ->].
  rewrite (hero_init_valid nm c l hardcore ltac:(lia)) in Hh.
  rewrite (hero_init_valid nm' c l' hardcore' ltac:(lia)) in Hh'.
  assert (Eh : h = Hero.mk nm (class_name c) l hardcore
                     (baseHP c + l * 10) (baseHP c + l * 10)
                     (baseAttack c + l * 2) (baseDefense c + l * 1)
                     (float_criticalChance c l)) by congruence.
  assert (Eh' : h' = Hero.mk nm' (class_name c) l' hardcore'
                       (baseHP c + l' * 10) (baseHP c + l' * 10)
                       (baseAttack c + l' * 2) (baseDefense c + l' * 1)
                       (float_criticalChance c l')) by congruence.
  rewrite Eh, Eh'.
  cbn [Hero.max_hp Hero.attack Hero.defense Hero.critical_chance].
  repeat split; try lia.
  apply criticalChance_grows; assumption.
Qed.

Lemma X1_hero_stats_grow_with_level_witness :
  exists h h',
    Hero.init "A" "Rogue" 7 false = Done h /\
    Hero.init "B" "Rogue" 8 true = Done h' /\
    Hero.max_hp h < Hero.max_hp h' /\
    Hero.attack h < Hero.attack h' /\
    Hero.defense h < Hero.defense h'.
Proof.
  run_battle (Hero.init "A" "Rogue" 7 false) Hh.
  run_battle (Hero.init "B" "Rogue" 8 true) Hh'.
  destruct (X1_hero_stats_grow_with_level
              "A" "B" "Rogue" 7 8 false true _ _
              ltac:(simpl; auto) ltac:(lia) ltac:(lia) ltac:(lia) Hh Hh')
    as (Hhp & Hatk & Hdef & _).
  do 2 eexists. split; [exact Hh|]. split; [exact Hh'|].
  split; [exact Hhp|]. split; [exact Hatk|exact Hdef].
Defined.

(** ** The cap of the critical chance *)

Lemma critical_chance_of_Done (cls : string) (lvl : Z) :
  PrimFloat.leb (critical_chance_of cls lvl) 0.75%float = true ->
  Hero._calculate_critical_chance cls lvl = Done (critical_chance_of cls lvl).
Proof.
  unfold critical_chance_of.
  destruct (Hero._calculate_critical_chance cls lvl); [reflexivity| |];
    intros Hnan; vm_compute in Hnan; discriminate.
Qed.

Lemma critical_chance_capped (c : HeroClass) (lvl : Z) :
  -1000 <= lvl <= 10000 ->
  PrimFloat.leb (critical_chance_of (class_name c) lvl) 0.75%float = true.
Proof.
  revert lvl.
  apply (forallb_zrange
           (fun l => PrimFloat.leb (critical_chance_of (class_name c) l) 0.75%float)).
  destruct c; vm_compute; reflexivity.
Qed.

Lemma critical_chance_below_cap (c : HeroClass) (lvl : Z) :
  1 <= lvl <= 100 ->
  PrimFloat.ltb (critical_chance_of (class_name c) lvl) 0.75%float = true.
Proof.
  revert lvl.
  apply (forallb_zrange
           (fun l => PrimFloat.ltb (critical_chance_of (class_name c) l) 0.75%float)).
  destruct c; vm_compute; reflexivity.
Qed.

Lemma critical_chance_at_cap (c : HeroClass) (lvl : Z) :
  301 <= lvl <= 10000 ->
  critical_chance_of (class_name c) lvl = 0.75%float.
Proof.
  intros Hl.
  set (over := fun (b : float) (l : Z) =>
                 match int_mul_float l 0.002%float with
                 | Done p => PrimFloat.ltb 0.75%float (PrimFloat.add b p)
                 | _ => false
                 end).
  assert (Hover : forall b, In b [0.15%float; 0.25%float; 0.35%float] ->
                            over b lvl = true).
  { intros b Hb. revert lvl Hl.
    apply (forallb_zrange (over b)).
    destruct Hb as [<-|[<-|[<-|[]]]]; vm_compute; reflexivity. }
  unfold critical_chance_of, Hero._calculate_critical_chance, Hero.base_crit.
  destruct c; cbn [class_name dict_get String.eqb Ascii.eqb Bool.eqb bind];
    match goal with
    | |- context [PrimFloat.add ?b _] =>
        specialize (Hover b ltac:(simpl; auto))
    end;
    unfold over in Hover;
    destruct (int_mul_float lvl 0.002%float) as [p| |]; try discriminate;
    cbn [bind]; unfold float_min; rewrite Hover; reflexivity.
Qed.

(** X2: for a valid class and any level of -1000..10000, which
    [Hero.__init__] accepts unchecked, the critical chance is computed
    without error and is at most 0.75; from level 301 on it is exactly 0.75,
    and for the levels 1..100 it stays strictly below, so the cap never
    binds for a level that passes validation. *)
Theorem X2_critical_chance_cap (cls : string) (lvl : Z) :
  In cls Hero.VALID_CLASSES ->
  -1000 <= lvl <= 10000 ->
  exists p,
    Hero._calculate_critical_chance cls lvl = Done p /\
    PrimFloat.leb p 0.75%float = true /\
    (301 <= lvl -> p = 0.75%float) /\
    (1 <= lvl <= 100 -> PrimFloat.ltb p 0.75%float = true).
Proof.
  intros Hcls Hl.
  destruct (valid_class_enumerated cls Hcls) as [c ->].
  pose proof (critical_chance_capped c lvl Hl) as Hcap.
  exists (critical_chance_of (class_name c) lvl).
  split; [apply (critical_chance_of_Done _ _ Hcap)|].
  split; [exact Hcap|]. split.
  - intros Hhigh. apply critical_chance_at_cap. lia.
  - apply critical_chance_below_cap.
Qed.

Lemma X2_critical_chance_cap_witness :
  Hero._calculate_critical_chance "Mage" 5000 = Done 0.75%float.
Proof.
  destruct (X2_critical_chance_cap "Mage" 5000) as (p & Hp & _ & Hcap & _).
  - simpl. auto.
  - lia.
  - rewrite Hp. f_equal. apply Hcap. lia.
Defined.

(** ** The hero's attack *)

Lemma attack_enemy_two_draws (h : Hero.t) (rng : RandomSource) :
  -990 <= Hero.attack h <= 990 ->
  exists roll,
    -5 <= roll <= 10 /\
    Hero.attack_enemy h rng
    = Done (if bernoulli (Hero.critical_chance h) rng
            then 2 * (Hero.attack h + roll)
            else Hero.attack h + roll,
            bernoulli (Hero.critical_chance h) rng,
            skip_draws 2 rng).
Proof.
  intros Hatk.
  pose proof (randint_range (-5) 10 (snd (random_random rng)) ltac:(lia)) as Hroll.
  exists (fst (random_randint (-5) 10 (snd (random_random rng)))).
  split; [exact Hroll|].
  unfold Hero.attack_enemy, bernoulli.
  change (skip_draws 2 rng)
    with (snd (random_randint (-5) 10 (snd (random_random rng)))).
  destruct (random_random rng) as [u rng1]. cbn [fst snd] in *.
  destruct (random_randint (-5) 10 rng1) as [roll rng2]. cbn [fst snd] in *.
  cbv zeta.
  destruct (PrimFloat.ltb u (Hero.critical_chance h)); [|reflexivity].
  destruct (bind_Done_inv _ _ _
              (double_damage_exact (Hero.attack h + roll) ltac:(lia)))
    as (doubled & -> & Hint).
  cbn [bind]. rewrite Hint. reflexivity.
Qed.

(** X3: for a hero built from a valid class and a level of 1..100,
    [attack_enemy] raises nothing, makes exactly two draws, reports as
    critical exactly the attacks whose first draw is below the critical
    chance, and returns the attack plus a roll of -5..10, doubled when
    critical; so the raw damage is in 22..245 and, when critical, an even
    number in 44..490. *)
Theorem X3_hero_attack_range
  (nm cls : string) (lvl : Z) (hardcore : bool) (h : Hero.t) (rng : RandomSource) :
  In cls Hero.VALID_CLASSES ->
  1 <= lvl <= 100 ->
  Hero.init nm cls lvl hardcore = Done h ->
  exists damage roll,
    Hero.attack_enemy h rng
    = Done (damage, bernoulli (Hero.critical_chance h) rng, skip_draws 2 rng) /\
    -5 <= roll <= 10 /\
    (bernoulli (Hero.critical_chance h) rng = false ->
     damage = Hero.attack h + roll /\ 22 <= damage <= 245) /\
    (bernoulli (Hero.critical_chance h) rng = true ->
     damage = 2 * (Hero.attack h + roll) /\ 44 <= damage <= 490).
Proof.
  intros Hcls Hl Hinit.
  pose proof (valid_hero_attack _ _ _ _ _ Hcls Hl Hinit) as Hatk.
  destruct (attack_enemy_two_draws h rng ltac:(lia)) as (roll & Hroll & Hdraw).
  destruct (bernoulli (Hero.critical_chance h) rng);
    eexists _, roll; (split; [exact Hdraw|]); (split; [exact Hroll|]);
    split; intros Hcrit; try discriminate; (split; [reflexivity|lia]).
Qed.

Lemma X3_hero_attack_range_witness :
  Hero.attack_enemy (Hero.mk "A" "Warrior" 1 false 160 160 27 21 0.152%float)
                    (fun _ => 0%N)
  = Done (44, true, skip_draws 2 (fun _ => 0%N)).
Proof.
  set (h := Hero.mk "A" "Warrior" 1 false 160 160 27 21 0.152%float).
  destruct (X3_hero_attack_range "A" "Warrior" 1 false h (fun _ => 0%N)
              ltac:(simpl; auto) ltac:(lia) eq_refl)
    as (damage & roll & Hdraw & _).
  rewrite Hdraw. vm_compute in Hdraw. injection Hdraw as <-. reflexivity.
Defined.

(** ** An enemy attack of raw damage 0 *)

(** X4: the loop takes an enemy damage of 0 for a miss, whatever the miss
    draw was.  When the enemy's attack does not miss but attack + roll is 0,
    which some draw produces for every enemy attack value of -8..3, the turn
    is logged as a miss and the hero is left untouched; a raw damage below 0
    on the other hand is applied and costs a hero of non-negative defense
    exactly 1 health. *)
Theorem X4_zero_damage_counts_as_miss (s : BattleSimulator.t) :
  -8 <= Enemy.attack (BattleSimulator.enemy s) <= 3 ->
  (exists rng,
      bernoulli 0.15%float rng = false /\
      fst (Enemy.attack_hero (BattleSimulator.enemy s) rng) = 0) /\
  (forall rng,
      fst (Enemy.attack_hero (BattleSimulator.enemy s) rng) = 0 ->
      let s' := snd (fst (BattleSimulator.enemy_turn s rng)) in
      BattleSimulator.hero s' = BattleSimulator.hero s /\
      exists rest,
        BattleSimulator.battle_log s'
        = BattleSimulator.battle_log s
          ++ mkEntry (BattleSimulator.turn_count s)
               (EnemyMisses (Enemy.name (BattleSimulator.enemy s))) :: rest) /\
  (forall rng,
      fst (Enemy.attack_hero (BattleSimulator.enemy s) rng) < 0 ->
      0 <= Hero.defense (BattleSimulator.hero s) ->
      let s' := snd (fst (BattleSimulator.enemy_turn s rng)) in
      Hero.current_hp (BattleSimulator.hero s')
      = Hero.current_hp (BattleSimulator.hero s) - 1).
Proof.
  intros Hatk. split; [|split].
  - set (a := Enemy.attack (BattleSimulator.enemy s)) in *.
    exists (fun i => match i with O => (2 ^ 52)%N | S _ => Z.to_N (3 - a) end).
    split; [vm_compute; reflexivity|].
    unfold Enemy.attack_hero, random_random, random_randint, next_draw.
    cbv beta iota zeta.
    match goal with
    | |- context [PrimFloat.ltb ?u 0.15%float] =>
        replace (PrimFloat.ltb u 0.15%float) with false
          by (vm_compute; reflexivity)
    end.
    cbv beta iota. cbn [fst]. fold a.
    rewrite Z2N.id by lia. rewrite Z.mod_small by lia. lia.
  - intros rng Hzero. cbv zeta.
    destruct (Enemy.attack_hero (BattleSimulator.enemy s) rng) as [d rng1] eqn:Hdraw.
    cbn [fst] in Hzero. subst d.
    destruct (enemy_turn_zero s rng rng1 Hdraw) as (broke & rest & -> & _).
    cbn [fst snd BattleSimulator.hero BattleSimulator.battle_log].
    split; [reflexivity|]. exists rest. reflexivity.
  - intros rng Hneg Hdef. cbv zeta.
    destruct (Enemy.attack_hero (BattleSimulator.enemy s) rng) as [d rng1] eqn:Hdraw.
    cbn [fst] in Hneg.
    destruct (enemy_turn_hit s rng rng1 d Hdraw ltac:(lia)) as (broke & rest & -> & _).
    cbn [fst snd BattleSimulator.hero Hero.take_damage Hero.current_hp].
    Z.div_mod_to_equations. lia.
Qed.

Lemma X4_zero_damage_counts_as_miss_witness :
  exists rng,
    bernoulli 0.15%float rng = false /\
    fst (Enemy.attack_hero (Enemy.mk (-10) false "Vile Lich" (-20) (-20) 0 0) rng) = 0.
Proof.
  apply (X4_zero_damage_counts_as_miss
           (BattleSimulator.init
              (Hero.mk "A" "Warrior" 1 false 160 160 27 21 0.152%float)
              (Enemy.mk (-10) false "Vile Lich" (-20) (-20) 0 0))).
  cbn. lia.
Defined.

(** ** The enemy's name *)

Lemma random_choice_In (seq : list string) (rng : RandomSource) :
  seq <> [] ->
  In (fst (random_choice seq rng)) seq /\
  snd (random_choice seq rng) = skip_draws 1 rng.
Proof.
  intros Hne. unfold random_choice, next_draw. cbn [fst snd].
  split; [|reflexivity].
  apply nth_In. apply Nat.mod_upper_bound.
  destruct seq; [contradiction|discriminate].
Qed.

Lemma random_choice_onto (seq : list string) (x : string) (rest : RandomSource) :
  In x seq ->
  exists rng, random_choice seq rng = (x, rest).
Proof.
  intros Hin.
  destruct (In_nth seq x "" Hin) as (i & Hi & Hnth).
  exists (fun k => match k with O => N.of_nat i | S j => rest j end).
  unfold random_choice, next_draw. f_equal.
  rewrite Nat2N.id, Nat.mod_small by exact Hi. exact Hnth.
Qed.

(** X5: an enemy that [Enemy.__init__] returns is named by one of the six
    prefixes, a space and one of the six creatures, and its construction
    has made exactly three draws; every one of the 36 names is produced by
    some random source. *)
Theorem X5_enemy_name
  (hero_level : Z) (hardcore : bool) (rng rng' : RandomSource) (e : Enemy.t) :
  Enemy.init hero_level hardcore rng = Done (e, rng') ->
  (exists p c,
      In p Enemy.prefixes /\ In c Enemy.creatures /\
      Enemy.name e = (p ++ " " ++ c)%string) /\
  rng' = skip_draws 3 rng /\
  (forall p c,
      In p Enemy.prefixes -> In c Enemy.creatures ->
      exists rng0, fst (Enemy._generate_name rng0) = (p ++ " " ++ c)%string).
Proof.
  intros Hinit. split; [|split].
  - unfold Enemy.init in Hinit.
    destruct (random_randint (-2) 3 rng) as [offset rng1].
    unfold Enemy._generate_name in Hinit.
    destruct (random_choice_In Enemy.prefixes rng1 ltac:(discriminate)) as [Hp _].
    destruct (random_choice Enemy.prefixes rng1) as [p rng2].
    destruct (random_choice_In Enemy.creatures rng2 ltac:(discriminate)) as [Hc _].
    destruct (random_choice Enemy.creatures rng2) as [c rng3].
    cbv zeta in Hinit. cbn [fst] in Hp, Hc.
    apply bind_Done_inv in Hinit as (hp_f & _ & Hinit).
    apply bind_Done_inv in Hinit as (hp & _ & Hinit).
    apply bind_Done_inv in Hinit as (atk_f & _ & Hinit).
    apply bind_Done_inv in Hinit as (atk & _ & Hinit).
    exists p, c. split; [exact Hp|]. split; [exact Hc|].
    injection Hinit as <- _. reflexivity.
  - unfold Enemy.init, Enemy._generate_name, random_randint, random_choice,
      next_draw in Hinit.
    cbv zeta beta iota in Hinit.
    apply bind_Done_inv in Hinit as (hp_f & _ & Hinit).
    apply bind_Done_inv in Hinit as (hp & _ & Hinit).
    apply bind_Done_inv in Hinit as (atk_f & _ & Hinit).
    apply bind_Done_inv in Hinit as (atk & _ & Hinit).
    injection Hinit as _ <-. reflexivity.
  - intros p c Hp Hc.
    destruct (random_choice_onto Enemy.creatures c (fun _ => 0%N) Hc) as [rng2 H2].
    destruct (random_choice_onto Enemy.prefixes p rng2 Hp) as [rng1 H1].
    exists rng1. unfold Enemy._generate_name. rewrite H1, H2. reflexivity.
Qed.

Lemma X5_enemy_name_witness :
  exists p c,
    In p Enemy.prefixes /\ In c Enemy.creatures /\
    "Dark Dragon" = (p ++ " " ++ c)%string.
Proof.
  run_battle (Enemy.init 1 true (fun _ => 0%N)) Hinit.
  destruct (X5_enemy_name _ _ _ _ _ Hinit) as ((p & c & Hp & Hc & Hname) & _).
  exists p, c. split; [exact Hp|]. split; [exact Hc|exact Hname].
Defined.

(** ** How the loop is left *)

Lemma loop_condition_false (s : BattleSimulator.t) :
  BattleSimulator.loop_condition s = false ->
  Hero.is_alive (BattleSimulator.hero s) = false \/
  Enemy.is_alive (BattleSimulator.enemy s) = false \/
  BattleSimulator.max_turns s <= BattleSimulator.turn_count s.
Proof.
  unfold BattleSimulator.loop_condition. intros Hcond.
  apply andb_false_iff in Hcond as [Hcond|Hcond].
  - apply andb_false_iff in Hcond as [Hcond|Hcond]; auto.
  - right. right. now apply Z.ltb_ge.
Qed.

Lemma loop_condition_true (s : BattleSimulator.t) :
  BattleSimulator.loop_condition s = true ->
  Hero.is_alive (BattleSimulator.hero s) = true /\
  Enemy.is_alive (BattleSimulator.enemy s) = true /\
  BattleSimulator.turn_count s < BattleSimulator.max_turns s.
Proof.
  unfold BattleSimulator.loop_condition. intros Hcond.
  apply andb_prop in Hcond as [Hcond Hturn].
  apply andb_prop in Hcond as [Hhero Henemy].
  apply Z.ltb_lt in Hturn. auto.
Qed.

(** When the loop returns, the battle is over. *)
Lemma while_loop_exit_state (fuel : nat) :
  forall (s s' : BattleSimulator.t) (rng rng' : RandomSource),
    BattleSimulator.while_loop fuel s rng = Done (s', rng') ->
    Hero.is_alive (BattleSimulator.hero s') = false \/
    Enemy.is_alive (BattleSimulator.enemy s') = false \/
    BattleSimulator.max_turns s' <= BattleSimulator.turn_count s'.
Proof.
  induction fuel as [|fuel IH]; intros s s' rng rng' Hloop.
  - cbn [BattleSimulator.while_loop] in Hloop.
    destruct (BattleSimulator.loop_condition s) eqn:Hcond; [discriminate|].
    injection Hloop as <- <-. apply loop_condition_false, Hcond.
  - destruct (BattleSimulator.loop_condition s) eqn:Hcond.
    + cbn [BattleSimulator.while_loop] in Hloop. rewrite Hcond in Hloop.
      destruct (BattleSimulator.loop_body s rng) as [[[broke s1] rng1]| |] eqn:Hbody;
        cbn [bind] in Hloop; try discriminate.
      destruct broke; [|apply (IH _ _ _ _ Hloop)].
      injection Hloop as <- <-.
      destruct (loop_body_shape _ _ _ _ _ Hbody)
        as (damage & critical & rng2 & h' & new & _ & -> & Hcases).
      cbn [BattleSimulator.hero BattleSimulator.enemy].
      destruct Hcases as [(Hdead & _)|(_ & Hbroke & _)]; [auto|].
      left. symmetry in Hbroke. apply negb_true_iff in Hbroke. exact Hbroke.
    + rewrite (while_loop_exit _ _ _ Hcond) in Hloop.
      injection Hloop as <- <-. apply loop_condition_false, Hcond.
Qed.

(** X6: whenever [simulate_battle] returns, the battle is over (a combatant
    is dead or the counter has reached [max_turns]); it returns True exactly
    when the hero is alive and the counter is below [max_turns], and then
    the enemy is dead; it returns False below [max_turns] only with the
    hero dead; and the last line of the log is the timeout line when the
    counter has reached [max_turns], the end line with the verdict
    otherwise. *)
Theorem X6_verdict
  (fuel : nat) (s s' : BattleSimulator.t) (rng rng' : RandomSource) (victory : bool) :
  BattleSimulator.simulate_battle fuel s rng = Done (victory, s', rng') ->
  (Hero.is_alive (BattleSimulator.hero s') = false \/
   Enemy.is_alive (BattleSimulator.enemy s') = false \/
   BattleSimulator.max_turns s' <= BattleSimulator.turn_count s') /\
  (victory = true <->
   Hero.is_alive (BattleSimulator.hero s') = true /\
   BattleSimulator.turn_count s' < BattleSimulator.max_turns s') /\
  (victory = true ->
   Enemy.current_hp (BattleSimulator.enemy s') <= 0 /\
   0 < Hero.current_hp (BattleSimulator.hero s')) /\
  (victory = false ->
   BattleSimulator.turn_count s' < BattleSimulator.max_turns s' ->
   Hero.current_hp (BattleSimulator.hero s') <= 0) /\
  exists earlier,
    BattleSimulator.battle_log s' = earlier ++ [verdict_line s' victory].
Proof.
  intros Hrun. unfold BattleSimulator.simulate_battle in Hrun.
  apply bind_Done_inv in Hrun as ([s1 rng1] & Hloop & Hend).
  pose proof (while_loop_exit_state _ _ _ _ _ Hloop) as Hover.
  unfold BattleSimulator.conclude in Hend. unfold verdict_line.
  unfold Hero.is_alive, Enemy.is_alive in *.
  destruct (Z.leb_spec (BattleSimulator.max_turns s1) (BattleSimulator.turn_count s1))
    as [Hceil|Hceil];
    injection Hend as <- <- _;
    cbn [BattleSimulator.log_event BattleSimulator.hero BattleSimulator.enemy
         BattleSimulator.turn_count BattleSimulator.max_turns
         BattleSimulator.battle_log].
  - split; [exact Hover|]. split; [split; [discriminate|lia]|].
    split; [discriminate|]. split; [lia|].
    destruct (Z.leb_spec (BattleSimulator.max_turns s1)
                         (BattleSimulator.turn_count s1)); [|lia].
    exists (BattleSimulator.battle_log s1). reflexivity.
  - split; [exact Hover|].
    destruct (Z.leb_spec (BattleSimulator.max_turns s1)
                         (BattleSimulator.turn_count s1)); [lia|].
    destruct (Z.ltb_spec 0 (Hero.current_hp (BattleSimulator.hero s1))) as [Hh|Hh].
    + split; [split; auto|]. split.
      * intros _. split; [|exact Hh].
        destruct Hover as [Hd|[Hd|Hd]]; try lia; apply Z.ltb_ge in Hd; lia.
      * split; [discriminate|].
        exists (BattleSimulator.battle_log s1). reflexivity.
    + split; [split; [discriminate|intros [Habs _]; discriminate]|].
      split; [discriminate|]. split; [intros _ _; exact Hh|].
      exists (BattleSimulator.battle_log s1). reflexivity.
Qed.

Lemma X6_verdict_witness :
  exists s',
    overkill_battle = Done (true, s') /\
    Enemy.current_hp (BattleSimulator.enemy s') <= 0 /\
    0 < Hero.current_hp (BattleSimulator.hero s').
Proof.
  set (h := Hero.mk "A" "Warrior" 1 false 160 160 27 21 0.152%float).
  set (e := Enemy.mk (-1) true "Dark Dragon" 132 132 27 9).
  run_battle (BattleSimulator.simulate_battle 50 (BattleSimulator.init h e)
                                              (fun _ => 0%N)) Hrun.
  destruct (X6_verdict _ _ _ _ _ _ Hrun) as (_ & _ & Hwon & _).
  match type of Hrun with
  | _ = Done (_, ?final, _) => exists final
  end.
  split; [vm_compute; reflexivity|]. apply Hwon. reflexivity.
Defined.

(** X7: a battle never ends with both combatants dead: if the hero or the
    enemy is alive when [simulate_battle] is called, one of them is alive
    when it returns. *)
Theorem X7_never_both_dead
  (fuel : nat) (s s' : BattleSimulator.t) (rng rng' : RandomSource) (victory : bool) :
  BattleSimulator.simulate_battle fuel s rng = Done (victory, s', rng') ->
  Hero.is_alive (BattleSimulator.hero s) = true \/
  Enemy.is_alive (BattleSimulator.enemy s) = true ->
  Hero.is_alive (BattleSimulator.hero s') = true \/
  Enemy.is_alive (BattleSimulator.enemy s') = true.
Proof.
  intros Hrun Hstart. unfold BattleSimulator.simulate_battle in Hrun.
  apply bind_Done_inv in Hrun as ([s1 rng1] & Hloop & Hend).
  assert (H1 : Hero.is_alive (BattleSimulator.hero s1) = true \/
               Enemy.is_alive (BattleSimulator.enemy s1) = true).
  { revert Hloop.
    apply (while_loop_invariant
             (fun st => Hero.is_alive (BattleSimulator.hero st) = true \/
                        Enemy.is_alive (BattleSimulator.enemy st) = true)).
    - intros sa rnga broke sb rngb _ Hcond Hbody.
      destruct (loop_condition_true _ Hcond) as (Hhero & _).
      destruct (loop_body_shape _ _ _ _ _ Hbody)
        as (damage & critical & rng2 & h' & new & _ & -> & Hcases).
      cbn [BattleSimulator.hero BattleSimulator.enemy].
      destruct Hcases as [(_ & _ & -> & _)|(Halive & _)]; auto.
    - destruct (announce_frame s) as (-> & -> & _). exact Hstart. }
  destruct (conclude_frame s1) as (Hh & He & _).
  destruct (BattleSimulator.conclude s1) as [v s2].
  injection Hend as _ <- _. cbn [snd] in Hh, He. rewrite Hh, He. exact H1.
Qed.

Lemma X7_never_both_dead_witness :
  exists s',
    overkill_battle = Done (true, s') /\
    (Hero.is_alive (BattleSimulator.hero s') = true \/
     Enemy.is_alive (BattleSimulator.enemy s') = true).
Proof.
  set (h := Hero.mk "A" "Warrior" 1 false 160 160 27 21 0.152%float).
  set (e := Enemy.mk (-1) true "Dark Dragon" 132 132 27 9).
  run_battle (BattleSimulator.simulate_battle 50 (BattleSimulator.init h e)
                                              (fun _ => 0%N)) Hrun.
  pose proof (X7_never_both_dead _ _ _ _ _ _ Hrun (or_introl eq_refl)) as Hend.
  match type of Hrun with
  | _ = Done (_, ?final, _) => exists final
  end.
  split; [vm_compute; reflexivity|exact Hend].
Defined.

(** ** The shape of the log *)

Lemma hero_attack_count_app (l1 l2 : list LogEntry) :
  hero_attack_count (l1 ++ l2) = (hero_attack_count l1 + hero_attack_count l2)%nat.
Proof.
  unfold hero_attack_count. rewrite filter_app. apply length_app.
Qed.

Lemma hero_attack_count_narration (turn : Z) (l : list LogEntry) :
  Forall (narrates turn) l -> hero_attack_count l = O.
Proof.
  unfold hero_attack_count. induction 1 as [|entry l (_ & Hquiet & _) _ IH].
  - reflexivity.
  - cbn [filter]. rewrite Hquiet. exact IH.
Qed.

Lemma turns_ascend_level (turn : Z) (l : list LogEntry) :
  Forall (fun entry => entry_turn entry = turn) l -> turns_ascend l.
Proof.
  unfold turns_ascend. induction 1 as [|entry l Hentry Hl IH]; constructor.
  - exact IH.
  - eapply Forall_impl; [|exact Hl]. cbv beta. intros other ->. lia.
Qed.

Lemma turns_ascend_app (l1 l2 : list LogEntry) (turn : Z) :
  turns_ascend l1 ->
  turns_ascend l2 ->
  Forall (fun entry => entry_turn entry <= turn) l1 ->
  Forall (fun entry => turn <= entry_turn entry) l2 ->
  turns_ascend (l1 ++ l2).
Proof.
  unfold turns_ascend. intros H1 H2 Hlow Hhigh.
  induction H1 as [|entry l1 Hl1 IH Hentry]; cbn [app]; [exact H2|].
  inversion Hlow as [|? ? Hle Hlow']; subst.
  constructor; [apply IH, Hlow'|].
  apply Forall_app. split; [exact Hentry|].
  eapply Forall_impl; [|exact Hhigh]. cbv beta. intros other Hother. lia.
Qed.

(** A turn appends at most six lines. *)
Lemma enemy_turn_length (s : BattleSimulator.t) (rng : RandomSource) :
  (List.length (BattleSimulator.battle_log (snd (fst (BattleSimulator.enemy_turn s rng))))
   <= List.length (BattleSimulator.battle_log s) + 4)%nat.
Proof.
  unfold BattleSimulator.enemy_turn.
  destruct (Enemy.attack_hero (BattleSimulator.enemy s) rng) as [d rng1].
  unfold Hero.take_damage, BattleSimulator.set_hero, BattleSimulator.log_event.
  destruct (d =? 0);
    cbn [BattleSimulator.hero BattleSimulator.enemy BattleSimulator.battle_log
         BattleSimulator.turn_count BattleSimulator.max_turns];
    match goal with
    | |- context [if ?b then _ else _] => destruct b
    end;
    cbn [fst snd BattleSimulator.battle_log];
    rewrite !length_app; cbn [List.length]; lia.
Qed.

Lemma loop_body_length (s s' : BattleSimulator.t) (rng rng' : RandomSource)
      (broke : bool) :
  BattleSimulator.loop_body s rng = Done (broke, s', rng') ->
  (List.length (BattleSimulator.battle_log s')
   <= List.length (BattleSimulator.battle_log s) + 6)%nat.
Proof.
  unfold BattleSimulator.loop_body, BattleSimulator.increment_turn. cbv zeta.
  destruct (Hero.attack_enemy _ rng) as [[[damage critical] rng1]| |];
    cbn [bind]; try discriminate.
  unfold Enemy.take_damage, BattleSimulator.set_enemy, BattleSimulator.log_event.
  cbn [BattleSimulator.hero BattleSimulator.enemy BattleSimulator.battle_log
       BattleSimulator.turn_count BattleSimulator.max_turns].
  match goal with
  | |- context [if ?b then _ else _] => destruct b
  end; intros Hbody.
  - injection Hbody as _ <- _. cbn [BattleSimulator.battle_log].
    rewrite !length_app. cbn [List.length]. lia.
  - injection Hbody as Hturn.
    match type of Hturn with
    | BattleSimulator.enemy_turn ?s1 ?r = _ =>
        pose proof (enemy_turn_length s1 r) as Hlen; rewrite Hturn in Hlen
    end.
    cbn [fst snd BattleSimulator.battle_log] in Hlen.
    rewrite !length_app in Hlen. cbn [List.length] in Hlen. lia.
Qed.

Lemma loop_body_log_grown (s0 s s' : BattleSimulator.t) (rng rng' : RandomSource)
      (broke : bool) (new : list LogEntry) :
  log_grown s0 s new ->
  BattleSimulator.loop_body s rng = Done (broke, s', rng') ->
  exists new', log_grown s0 s' new'.
Proof.
  intros (Hlog & Hle & Hturns & Hsorted & Hcount & Hlen) Hbody.
  pose proof (loop_body_length _ _ _ _ _ Hbody) as Hsix.
  destruct (loop_body_shape _ _ _ _ _ Hbody)
    as (damage & critical & rng1 & h' & tail & _ & -> & Hcases).
  set (turn := BattleSimulator.turn_count s + 1) in *.
  assert (Htail : Forall (fun entry => entry_turn entry = turn) tail /\
                  hero_attack_count tail = O).
  { destruct Hcases as [(_ & _ & _ & _ & ->)|(_ & _ & d & rest & _ & Hrest & Hd)].
    - split; [repeat constructor|reflexivity].
    - destruct (narrates_quiet _ _ Hrest) as (Hr & _).
      pose proof (hero_attack_count_narration _ _ Hrest) as Hzero.
      destruct Hd as [(_ & _ & ->)|(_ & _ & ->)];
        (split; [constructor; [reflexivity|exact Hr]|exact Hzero]). }
  destruct Htail as [Htail Hzero].
  match goal with
  | |- context [BattleSimulator.battle_log s ++ ?b] => set (block := b) in *
  end.
  assert (Hblock : Forall (fun entry => entry_turn entry = turn) block)
    by (repeat (constructor; [reflexivity|]); exact Htail).
  exists (new ++ block). unfold log_grown.
  cbn [BattleSimulator.battle_log BattleSimulator.turn_count] in *.
  rewrite Hlog, <- app_assoc.
  split; [reflexivity|]. split; [lia|]. split; [|split; [|split]].
  - apply Forall_app. split.
    + eapply Forall_impl; [|exact Hturns]. cbv beta. intros entry Hentry. lia.
    + eapply Forall_impl; [|exact Hblock]. cbv beta. intros entry ->. lia.
  - apply (turns_ascend_app _ _ (BattleSimulator.turn_count s)).
    + exact Hsorted.
    + apply (turns_ascend_level turn), Hblock.
    + eapply Forall_impl; [|exact Hturns]. cbv beta. intros entry Hentry. lia.
    + eapply Forall_impl; [|exact Hblock]. cbv beta. intros entry ->. lia.
  - rewrite hero_attack_count_app.
    assert (Hone : hero_attack_count block = 1%nat).
    { unfold block, hero_attack_count. cbn [filter is_hero_attack entry_message].
      cbn [List.length]. f_equal. exact Hzero. }
    lia.
  - rewrite Hlog, !length_app in Hsix. rewrite length_app. lia.
Qed.

Lemma simulate_battle_log_grown
      (fuel : nat) (s s' : BattleSimulator.t) (rng rng' : RandomSource)
      (victory : bool) :
  BattleSimulator.simulate_battle fuel s rng = Done (victory, s', rng') ->
  exists new,
    BattleSimulator.battle_log s' = BattleSimulator.battle_log s ++ new /\
    BattleSimulator.turn_count s <= BattleSimulator.turn_count s' /\
    Forall (fun entry => BattleSimulator.turn_count s <= entry_turn entry
                         <= BattleSimulator.turn_count s') new /\
    turns_ascend new /\
    Z.of_nat (hero_attack_count new)
    = BattleSimulator.turn_count s' - BattleSimulator.turn_count s /\
    Z.of_nat (List.length new)
    <= 6 * (BattleSimulator.turn_count s' - BattleSimulator.turn_count s) + 7.
Proof.
  intros Hrun. unfold BattleSimulator.simulate_battle in Hrun.
  apply bind_Done_inv in Hrun as ([s1 rng1] & Hloop & Hend).
  assert (H0 : exists new, log_grown s (BattleSimulator.announce s) new).
  { destruct (announce_log s) as (new & Hlog & Hnew).
    destruct (announce_frame s) as (_ & _ & Hturn & _).
    destruct (narrates_quiet _ _ Hnew) as (Hlevel & _).
    exists new. unfold log_grown. rewrite Hturn.
    split; [exact Hlog|]. split; [lia|]. split; [|split; [|split]].
    - eapply Forall_impl; [|exact Hlevel]. cbv beta. intros entry ->. lia.
    - apply (turns_ascend_level _ _ Hlevel).
    - rewrite (hero_attack_count_narration _ _ Hnew). lia.
    - assert (Hlen : (List.length (BattleSimulator.battle_log (BattleSimulator.announce s))
                      <= List.length (BattleSimulator.battle_log s) + 6)%nat).
      { destruct s as [h e log turn ceiling]. unfold BattleSimulator.announce.
        cbv beta iota zeta delta
            [BattleSimulator.log_event BattleSimulator.hero BattleSimulator.enemy
             BattleSimulator.battle_log BattleSimulator.turn_count
             BattleSimulator.max_turns].
        destruct (Hero.hardcore_mode h); cbv beta iota;
          rewrite !length_app; cbn [List.length]; lia. }
      rewrite Hlog, length_app in Hlen. lia. }
  assert (H1 : exists new, log_grown s s1 new).
  { revert Hloop.
    apply (while_loop_invariant (fun st => exists new, log_grown s st new));
      [|exact H0].
    intros sa rnga broke sb rngb [new Hsa] _ Hbody.
    apply (loop_body_log_grown _ _ _ _ _ _ _ Hsa Hbody). }
  destruct H1 as (new & Hlog & Hle & Hturns & Hsorted & Hcount & Hlen).
  assert (Hs' : BattleSimulator.battle_log s'
                = BattleSimulator.battle_log s1
                  ++ [mkEntry (BattleSimulator.turn_count s1)
                              (entry_message (verdict_line s' victory))]
                /\ BattleSimulator.turn_count s' = BattleSimulator.turn_count s1).
  { unfold BattleSimulator.conclude in Hend. unfold verdict_line.
    destruct (BattleSimulator.max_turns s1 <=? BattleSimulator.turn_count s1) eqn:Hceil;
      injection Hend as <- <- _;
      cbn [BattleSimulator.log_event BattleSimulator.battle_log
           BattleSimulator.turn_count BattleSimulator.max_turns entry_message];
      rewrite Hceil; auto. }
  destruct Hs' as [Hs' Hsame]. rewrite Hsame.
  match type of Hs' with
  | _ = _ ++ [?v] => set (closing := v) in *
  end.
  exists (new ++ [closing]).
  split; [rewrite Hs', Hlog, <- app_assoc; reflexivity|].
  split; [exact Hle|]. split; [|split; [|split]].
  - apply Forall_app. split; [exact Hturns|].
    constructor; [cbn; lia|constructor].
  - apply (turns_ascend_app _ _ (BattleSimulator.turn_count s1)).
    + exact Hsorted.
    + apply (turns_ascend_level (BattleSimulator.turn_count s1)).
      constructor; [reflexivity|constructor].
    + eapply Forall_impl; [|exact Hturns]. cbv beta. intros entry Hentry. lia.
    + constructor; [cbn; lia|constructor].
  - rewrite hero_attack_count_app.
    assert (Hnone : hero_attack_count [closing] = O).
    { unfold closing, verdict_line, hero_attack_count. cbn [entry_message filter].
      destruct (BattleSimulator.max_turns s' <=? BattleSimulator.turn_count s');
        reflexivity. }
    lia.
  - rewrite length_app. cbn [List.length]. lia.
Qed.

Lemma simulate_battle_within_ceiling
      (fuel : nat) (s s' : BattleSimulator.t) (rng rng' : RandomSource)
      (victory : bool) :
  BattleSimulator.simulate_battle fuel s rng = Done (victory, s', rng') ->
  BattleSimulator.turn_count s <= BattleSimulator.max_turns s ->
  BattleSimulator.turn_count s' <= BattleSimulator.max_turns s' /\
  BattleSimulator.max_turns s' = BattleSimulator.max_turns s.
Proof.
  intros Hrun Hstart. unfold BattleSimulator.simulate_battle in Hrun.
  apply bind_Done_inv in Hrun as ([s1 rng1] & Hloop & Hend).
  assert (H1 : BattleSimulator.turn_count s1 <= BattleSimulator.max_turns s1 /\
               BattleSimulator.max_turns s1 = BattleSimulator.max_turns s).
  { revert Hloop.
    apply (while_loop_invariant
             (fun st => BattleSimulator.turn_count st <= BattleSimulator.max_turns st /\
                        BattleSimulator.max_turns st = BattleSimulator.max_turns s)).
    - intros sa rnga broke sb rngb [_ Hsame] Hcond Hbody.
      destruct (loop_condition_true _ Hcond) as (_ & _ & Hlt).
      destruct (loop_body_frame _ _ _ _ _ Hbody) as (Hturn & Hmax & _).
      lia.
    - destruct (announce_frame s) as (_ & _ & -> & ->). lia. }
  destruct (conclude_frame s1) as (_ & _ & Hturn & Hmax).
  destruct (BattleSimulator.conclude s1) as [v s2].
  injection Hend as _ <- _. cbn [snd] in Hturn, Hmax. lia.
Qed.

(** X8: the log is append-only and ordered.  When [simulate_battle] returns,
    the log is the log it was called with followed by new lines whose turn
    numbers never go down and lie between the counter at the call and the
    counter at the return; there are at most six lines per turn played plus
    seven, and a counter that started at or below [max_turns] has not
    passed it (for a fresh session: at most 50 turns and 307 lines). *)
Theorem X8_log_is_appended_in_turn_order
  (fuel : nat) (s s' : BattleSimulator.t) (rng rng' : RandomSource) (victory : bool) :
  BattleSimulator.simulate_battle fuel s rng = Done (victory, s', rng') ->
  (exists new,
      BattleSimulator.battle_log s' = BattleSimulator.battle_log s ++ new /\
      turns_ascend new /\
      Forall (fun entry => BattleSimulator.turn_count s <= entry_turn entry
                           <= BattleSimulator.turn_count s') new /\
      Z.of_nat (List.length new)
      <= 6 * (BattleSimulator.turn_count s' - BattleSimulator.turn_count s) + 7) /\
  (BattleSimulator.turn_count s <= BattleSimulator.max_turns s ->
   BattleSimulator.turn_count s' <= BattleSimulator.max_turns s) /\
  (forall h e,
      s = BattleSimulator.init h e ->
      BattleSimulator.turn_count s' <= 50 /\
      (List.length (BattleSimulator.battle_log s') <= 307)%nat).
Proof.
  intros Hrun.
  destruct (simulate_battle_log_grown _ _ _ _ _ _ Hrun)
    as (new & Hlog & Hle & Hturns & Hsorted & _ & Hlen).
  split; [exists new; auto|].
  split.
  - intros Hstart.
    destruct (simulate_battle_within_ceiling _ _ _ _ _ _ Hrun Hstart). lia.
  - intros h e ->.
    destruct (simulate_battle_within_ceiling _ _ _ _ _ _ Hrun) as [Hceil Hmax];
      [cbn; lia|].
    cbn [BattleSimulator.init BattleSimulator.battle_log BattleSimulator.turn_count
         BattleSimulator.max_turns app] in *.
    rewrite Hlog. split; lia.
Qed.

Lemma X8_log_is_appended_in_turn_order_witness :
  exists s',
    overkill_battle = Done (true, s') /\
    turns_ascend (BattleSimulator.battle_log s') /\
    (List.length (BattleSimulator.battle_log s') <= 307)%nat.
Proof.
  set (h := Hero.mk "A" "Warrior" 1 false 160 160 27 21 0.152%float).
  set (e := Enemy.mk (-1) true "Dark Dragon" 132 132 27 9).
  run_battle (BattleSimulator.simulate_battle 50 (BattleSimulator.init h e)
                                              (fun _ => 0%N)) Hrun.
  destruct (X8_log_is_appended_in_turn_order _ _ _ _ _ _ Hrun)
    as ((new & Hlog & Hsorted & _) & _ & Hfresh).
  destruct (Hfresh h e eq_refl) as [_ Hlen].
  match type of Hrun with
  | _ = Done (_, ?final, _) => exists final
  end.
  split; [vm_compute; reflexivity|]. split; [|exact Hlen].
  rewrite Hlog. exact Hsorted.
Defined.

(** X9: the log holds exactly one hero attack per turn played: when
    [simulate_battle] returns, the number of hero attack lines has grown by
    the increase of the turn counter, so for a fresh session it equals the
    final turn counter. *)
Theorem X9_one_hero_attack_per_turn
  (fuel : nat) (s s' : BattleSimulator.t) (rng rng' : RandomSource) (victory : bool) :
  BattleSimulator.simulate_battle fuel s rng = Done (victory, s', rng') ->
  Z.of_nat (hero_attack_count (BattleSimulator.battle_log s'))
  = Z.of_nat (hero_attack_count (BattleSimulator.battle_log s))
    + (BattleSimulator.turn_count s' - BattleSimulator.turn_count s) /\
  (forall h e,
      s = BattleSimulator.init h e ->
      Z.of_nat (hero_attack_count (BattleSimulator.battle_log s'))
      = BattleSimulator.turn_count s').
Proof.
  intros Hrun.
  destruct (simulate_battle_log_grown _ _ _ _ _ _ Hrun)
    as (new & Hlog & _ & _ & _ & Hcount & _).
  rewrite Hlog, hero_attack_count_app.
  split; [lia|].
  intros h e ->. cbn in *. lia.
Qed.

Lemma X9_one_hero_attack_per_turn_witness :
  exists s',
    overkill_battle = Done (true, s') /\
    Z.of_nat (hero_attack_count (BattleSimulator.battle_log s'))
    = BattleSimulator.turn_count s'.
Proof.
  set (h := Hero.mk "A" "Warrior" 1 false 160 160 27 21 0.152%float).
  set (e := Enemy.mk (-1) true "Dark Dragon" 132 132 27 9).
  run_battle (BattleSimulator.simulate_battle 50 (BattleSimulator.init h e)
                                              (fun _ => 0%N)) Hrun.
  destruct (X9_one_hero_attack_per_turn _ _ _ _ _ _ Hrun) as [_ Hfresh].
  specialize (Hfresh h e eq_refl).
  match type of Hrun with
  | _ = Done (_, ?final, _) => exists final
  end.
  split; [vm_compute; reflexivity|exact Hfresh].
Defined.

(** ** Battles between combatants of one level, and [main] *)

Lemma while_loop_plays (fuel : nat) (s s' : BattleSimulator.t)
      (rng rng' : RandomSource) :
  BattleSimulator.loop_condition s = true ->
  BattleSimulator.while_loop fuel s rng = Done (s', rng') ->
  BattleSimulator.turn_count s < BattleSimulator.turn_count s'.
Proof.
  intros Hcond Hloop.
  destruct fuel as [|fuel]; cbn [BattleSimulator.while_loop] in Hloop;
    rewrite Hcond in Hloop; [discriminate|].
  destruct (BattleSimulator.loop_body s rng) as [[[broke s1] rng1]| |] eqn:Hbody;
    cbn [bind] in Hloop; try discriminate.
  destruct (loop_body_frame _ _ _ _ _ Hbody) as (Hturn & _).
  destruct broke.
  - injection Hloop as <- <-. lia.
  - assert (Hle : BattleSimulator.turn_count s1 <= BattleSimulator.turn_count s').
    { revert Hloop.
      apply (while_loop_invariant
               (fun st => BattleSimulator.turn_count s1
                          <= BattleSimulator.turn_count st)); [|lia].
      intros sa rnga b sb rngb Hsa _ Hb.
      destruct (loop_body_frame _ _ _ _ _ Hb) as (Hstep & _). lia. }
    lia.
Qed.

Lemma valid_combatants_alive
      (nm cls : string) (lvl hero_level : Z) (hardcore hardcore' : bool)
      (rng0 rng : RandomSource) (h : Hero.t) (e : Enemy.t) :
  In cls Hero.VALID_CLASSES ->
  1 <= lvl <= 100 ->
  1 <= hero_level <= 100 ->
  Hero.init nm cls lvl hardcore = Done h ->
  Enemy.init hero_level hardcore' rng0 = Done (e, rng) ->
  Hero.is_alive h = true /\ Enemy.is_alive e = true.
Proof.
  intros Hcls Hl Hel Hhero Henemy.
  destruct (valid_class_enumerated cls Hcls) as [c ->].
  rewrite (hero_init_valid nm c lvl hardcore Hl) in Hhero.
  pose proof (enemy_init_valid hero_level hardcore' rng0 Hel) as Hvalid.
  pose proof (randint_range (-2) 3 rng0 ltac:(lia)) as Hoff.
  cbv zeta in Hvalid. rewrite Henemy in Hvalid.
  destruct (random_randint (-2) 3 rng0) as [offset rng1].
  cbn [fst snd] in Hvalid, Hoff.
  assert (Hh : Hero.current_hp h = baseHP c + lvl * 10)
    by (injection Hhero as <-; reflexivity).
  assert (He : Enemy.current_hp e
               = spec_scaled (100 + (hero_level + offset) * 12) hardcore')
    by (injection Hvalid as -> _; reflexivity).
  unfold Hero.is_alive, Enemy.is_alive. rewrite Hh, He.
  split; apply Z.ltb_lt.
  - destruct c; cbn [baseHP]; lia.
  - unfold spec_scaled. destruct hardcore'; [Z.div_mod_to_equations|]; lia.
Qed.

Lemma same_level_battle_is_decided
  (nm cls : string) (lvl : Z) (hardcore : bool) (rng0 rng : RandomSource)
  (h : Hero.t) (e : Enemy.t) :
  In cls Hero.VALID_CLASSES ->
  1 <= lvl <= 100 ->
  Hero.init nm cls lvl hardcore = Done h ->
  Enemy.init lvl hardcore rng0 = Done (e, rng) ->
  exists victory s' rng',
    (forall fuel, (50 <= fuel)%nat ->
       BattleSimulator.simulate_battle fuel (BattleSimulator.init h e) rng
       = Done (victory, s', rng')) /\
    1 <= BattleSimulator.turn_count s' <= 15 /\
    victory = Hero.is_alive (BattleSimulator.hero s') /\
    (victory = true -> Enemy.current_hp (BattleSimulator.enemy s') <= 0) /\
    (victory = false -> Hero.current_hp (BattleSimulator.hero s') <= 0) /\
    exists earlier,
      BattleSimulator.battle_log s'
      = earlier ++ [mkEntry (BattleSimulator.turn_count s') (BattleEnd victory)].
Proof.
  intros Hcls Hl Hhero Henemy.
  destruct (main_battle_never_times_out _ _ _ _ _ _ _ _ Hcls Hl Hhero Henemy)
    as (victory & s' & rng' & Hall & Hturn & Hverdict & Hlast).
  exists victory, s', rng'.
  pose proof (Hall 50%nat (le_n 50)) as Hrun.
  destruct (simulate_battle_within_ceiling _ _ _ _ _ _ Hrun ltac:(cbn; lia))
    as [_ Hmax].
  cbn [BattleSimulator.init BattleSimulator.max_turns] in Hmax.
  assert (Hover := Hrun).
  unfold BattleSimulator.simulate_battle in Hover.
  apply bind_Done_inv in Hover as ([s1 rng1] & Hloop & Hend).
  assert (Hplay := Hloop).
  apply while_loop_exit_state in Hloop.
  destruct (conclude_frame s1) as (Hh & He & Ht & Hm).
  destruct (BattleSimulator.conclude s1) as [v s2].
  injection Hend as _ <- _. cbn [snd] in Hh, He, Ht, Hm.
  rewrite <- Hh, <- He, <- Ht, <- Hm in Hloop.
  assert (Hplayed : 1 <= BattleSimulator.turn_count s2).
  { destruct (valid_combatants_alive _ _ _ _ _ _ _ _ _ _ Hcls Hl Hl Hhero Henemy)
      as [Hhalive Healive].
    destruct (announce_frame (BattleSimulator.init h e)) as (Ah & Ae & At & Am).
    assert (Hcond : BattleSimulator.loop_condition
                      (BattleSimulator.announce (BattleSimulator.init h e)) = true).
    { unfold BattleSimulator.loop_condition. rewrite Ah, Ae, At, Am.
      cbn [BattleSimulator.init BattleSimulator.hero BattleSimulator.enemy
           BattleSimulator.turn_count BattleSimulator.max_turns].
      rewrite Hhalive, Healive. reflexivity. }
    pose proof (while_loop_plays _ _ _ _ _ Hcond Hplay) as Hlt.
    rewrite At in Hlt. cbn [BattleSimulator.init BattleSimulator.turn_count] in Hlt.
    lia. }
  split; [exact Hall|]. split; [lia|]. split; [exact Hverdict|].
  unfold Hero.is_alive, Enemy.is_alive in *.
  split; [|split; [|exact Hlast]].
  - intros ->. symmetry in Hverdict. apply Z.ltb_lt in Hverdict.
    destruct Hloop as [Hd|[Hd|Hd]]; try (apply Z.ltb_ge in Hd); lia.
  - intros ->. symmetry in Hverdict. apply Z.ltb_ge in Hverdict. exact Hverdict.
Qed.

(** X10: when the enemy is built from the hero's own valid level, as [main]
    builds it, the battle returns for every fuel of at least 50 after 1 to
    15 turns and never times out: the verdict is True exactly when the hero
    is alive, in which case the enemy is dead, it is False only with the
    hero dead, and the last line of the log is the end line with that
    verdict. *)
Theorem X10_same_level_battle_is_decided
  (nm cls : string) (lvl : Z) (hardcore : bool) (rng0 rng : RandomSource)
  (h : Hero.t) (e : Enemy.t) :
  In cls Hero.VALID_CLASSES ->
  1 <= lvl <= 100 ->
  Hero.init nm cls lvl hardcore = Done h ->
  Enemy.init lvl hardcore rng0 = Done (e, rng) ->
  exists victory s' rng',
    (forall fuel, (50 <= fuel)%nat ->
       BattleSimulator.simulate_battle fuel (BattleSimulator.init h e) rng
       = Done (victory, s', rng')) /\
    1 <= BattleSimulator.turn_count s' <= 15 /\
    victory = Hero.is_alive (BattleSimulator.hero s') /\
    (victory = true -> Enemy.current_hp (BattleSimulator.enemy s') <= 0) /\
    (victory = false -> Hero.current_hp (BattleSimulator.hero s') <= 0) /\
    exists earlier,
      BattleSimulator.battle_log s'
      = earlier ++ [mkEntry (BattleSimulator.turn_count s') (BattleEnd victory)].
Proof.
  intros Hcls Hl Hhero Henemy.
  apply (same_level_battle_is_decided nm cls lvl hardcore rng0); assumption.
Qed.

Lemma X10_same_level_battle_is_decided_witness :
  exists victory s' rng',
    BattleSimulator.simulate_battle 50
      (BattleSimulator.init (Hero.mk "A" "Warrior" 1 false 160 160 27 21 0.152%float)
                            (Enemy.mk (-1) false "Dark Dragon" 88 88 18 9))
      (skip_draws 3 (fun _ => 0%N))
    = Done (victory, s', rng') /\
    1 <= BattleSimulator.turn_count s' <= 15.
Proof.
  destruct (X10_same_level_battle_is_decided
              "A" "Warrior" 1 false (fun _ => 0%N) (skip_draws 3 (fun _ => 0%N))
              (Hero.mk "A" "Warrior" 1 false 160 160 27 21 0.152%float)
              (Enemy.mk (-1) false "Dark Dragon" 88 88 18 9)
              ltac:(simpl; auto) ltac:(lia) eq_refl eq_refl)
    as (victory & s' & rng' & Hall & Hturn & _).
  exists victory, s', rng'. split; [apply Hall; lia|exact Hturn].
Defined.

(** ** The hero's kill in the battles of main *)

(** The timeout line is written by nothing but the test after the loop. *)
Lemma enemy_turn_no_timeout (s : BattleSimulator.t) (rng : RandomSource) :
  Forall (fun entry => entry_message entry <> BattleTimeout)
         (BattleSimulator.battle_log s) ->
  Forall (fun entry => entry_message entry <> BattleTimeout)
         (BattleSimulator.battle_log (snd (fst (BattleSimulator.enemy_turn s rng)))).
Proof.
  intros Hlog. unfold BattleSimulator.enemy_turn.
  destruct (Enemy.attack_hero (BattleSimulator.enemy s) rng) as [d rng1].
  unfold Hero.take_damage, BattleSimulator.set_hero, BattleSimulator.log_event.
  destruct (d =? 0);
    cbn [BattleSimulator.hero BattleSimulator.enemy BattleSimulator.battle_log
         BattleSimulator.turn_count BattleSimulator.max_turns];
    match goal with
    | |- context [if ?b then _ else _] => destruct b
    end;
    cbn [fst snd BattleSimulator.battle_log];
    repeat (apply Forall_app; split); try exact Hlog;
    repeat constructor; cbn [entry_message]; discriminate.
Qed.

Lemma loop_body_no_timeout (s s' : BattleSimulator.t) (rng rng' : RandomSource)
      (broke : bool) :
  Forall (fun entry => entry_message entry <> BattleTimeout)
         (BattleSimulator.battle_log s) ->
  BattleSimulator.loop_body s rng = Done (broke, s', rng') ->
  Forall (fun entry => entry_message entry <> BattleTimeout)
         (BattleSimulator.battle_log s').
Proof.
  intros Hlog.
  unfold BattleSimulator.loop_body, BattleSimulator.increment_turn. cbv zeta.
  destruct (Hero.attack_enemy _ rng) as [[[damage critical] rng1]| |];
    cbn [bind]; try discriminate.
  unfold Enemy.take_damage, BattleSimulator.set_enemy, BattleSimulator.log_event.
  cbn [BattleSimulator.hero BattleSimulator.enemy BattleSimulator.battle_log
       BattleSimulator.turn_count BattleSimulator.max_turns].
  match goal with
  | |- context [if ?b then _ else _] => destruct b
  end; intros Hbody.
  - injection Hbody as _ <- _. cbn [BattleSimulator.battle_log].
    repeat (apply Forall_app; split); try exact Hlog;
      repeat constructor; cbn [entry_message]; discriminate.
  - injection Hbody as Hturn.
    match type of Hturn with
    | BattleSimulator.enemy_turn ?s1 ?r = _ =>
        pose proof (enemy_turn_no_timeout s1 r) as Hnone; rewrite Hturn in Hnone
    end.
    cbn [fst snd BattleSimulator.battle_log] in Hnone. apply Hnone.
    repeat (apply Forall_app; split); try exact Hlog;
      repeat constructor; cbn [entry_message]; discriminate.
Qed.

Lemma announce_no_timeout (s : BattleSimulator.t) :
  Forall (fun entry => entry_message entry <> BattleTimeout)
         (BattleSimulator.battle_log s) ->
  Forall (fun entry => entry_message entry <> BattleTimeout)
         (BattleSimulator.battle_log (BattleSimulator.announce s)).
Proof.
  destruct s as [h e log turn ceiling]. unfold BattleSimulator.announce.
  cbv beta iota zeta delta
      [BattleSimulator.log_event BattleSimulator.hero BattleSimulator.enemy
       BattleSimulator.battle_log BattleSimulator.turn_count
       BattleSimulator.max_turns].
  intros Hlog.
  destruct (Hero.hardcore_mode h); cbv beta iota;
    repeat (apply Forall_app; split); try exact Hlog;
    repeat constructor; cbn [entry_message]; discriminate.
Qed.

(** A timeout line in the log of a battle means that the counter has reached
    the ceiling. *)
Lemma simulate_battle_timeout_line
      (fuel : nat) (s s' : BattleSimulator.t) (rng rng' : RandomSource)
      (victory : bool) (entry : LogEntry) :
  BattleSimulator.simulate_battle fuel s rng = Done (victory, s', rng') ->
  Forall (fun entry => entry_message entry <> BattleTimeout)
         (BattleSimulator.battle_log s) ->
  In entry (BattleSimulator.battle_log s') ->
  entry_message entry = BattleTimeout ->
  BattleSimulator.max_turns s' <= BattleSimulator.turn_count s'.
Proof.
  intros Hrun Hstart Hin Hline. unfold BattleSimulator.simulate_battle in Hrun.
  apply bind_Done_inv in Hrun as ([s1 rng1] & Hloop & Hend).
  assert (H1 : Forall (fun entry => entry_message entry <> BattleTimeout)
                      (BattleSimulator.battle_log s1)).
  { revert Hloop.
    apply (while_loop_invariant
             (fun st => Forall (fun entry => entry_message entry <> BattleTimeout)
                               (BattleSimulator.battle_log st)));
      [|apply announce_no_timeout, Hstart].
    intros sa rnga broke sb rngb Hsa _ Hbody.
    apply (loop_body_no_timeout _ _ _ _ _ Hsa Hbody). }
  rewrite Forall_forall in H1.
  unfold BattleSimulator.conclude in Hend.
  destruct (Z.leb_spec (BattleSimulator.max_turns s1) (BattleSimulator.turn_count s1))
    as [Hceil|Hceil];
    injection Hend as _ <- _;
    cbn [BattleSimulator.log_event BattleSimulator.battle_log
         BattleSimulator.turn_count BattleSimulator.max_turns] in *;
    [exact Hceil|].
  apply in_app_or in Hin. destruct Hin as [Hin|[<-|[]]].
  - elim (H1 _ Hin Hline).
  - discriminate.
Qed.

(** A battle never ends with both combatants dead. *)
Lemma one_combatant_survives
  (fuel : nat) (s s' : BattleSimulator.t) (rng rng' : RandomSource) (victory : bool) :
  BattleSimulator.simulate_battle fuel s rng = Done (victory, s', rng') ->
  Hero.is_alive (BattleSimulator.hero s) = true \/
  Enemy.is_alive (BattleSimulator.enemy s) = true ->
  Hero.is_alive (BattleSimulator.hero s') = true \/
  Enemy.is_alive (BattleSimulator.enemy s') = true.
Proof.
  intros Hrun Hstart. unfold BattleSimulator.simulate_battle in Hrun.
  apply bind_Done_inv in Hrun as ([s1 rng1] & Hloop & Hend).
  assert (H1 : Hero.is_alive (BattleSimulator.hero s1) = true \/
               Enemy.is_alive (BattleSimulator.enemy s1) = true).
  { revert Hloop.
    apply (while_loop_invariant
             (fun st => Hero.is_alive (BattleSimulator.hero st) = true \/
                        Enemy.is_alive (BattleSimulator.enemy st) = true)).
    - intros sa rnga broke sb rngb _ Hcond Hbody.
      destruct (loop_condition_true _ Hcond) as (Hhero & _).
      destruct (loop_body_shape _ _ _ _ _ Hbody)
        as (damage & critical & rng2 & h' & new & _ & -> & Hcases).
      cbn [BattleSimulator.hero BattleSimulator.enemy].
      destruct Hcases as [(_ & _ & -> & _)|(Halive & _)]; auto.
    - destruct (announce_frame s) as (-> & -> & _). exact Hstart. }
  destruct (conclude_frame s1) as (Hh & He & _).
  destruct (BattleSimulator.conclude s1) as [v s2].
  injection Hend as _ <- _. cbn [snd] in Hh, He. rewrite Hh, He. exact H1.
Qed.



Lemma validate_arguments_Done (strptime_ok : string -> bool) (args : Args) :
  validate_arguments strptime_ok args = Done tt ->
  1 <= level args <= 100 /\
  In (hero_class args) Hero.VALID_CLASSES /\
  strptime_ok (battle_date args) = true.
Proof.
  unfold validate_arguments.
  destruct (Z.ltb_spec (level args) 1); [discriminate|].
  destruct (Z.ltb_spec 100 (level args)); [discriminate|]. cbn [orb].
  destruct (str_in (hero_class args) Hero.VALID_CLASSES) eqn:Hin; [|discriminate].
  cbn [negb].
  destruct (strptime_ok (battle_date args)); [|discriminate].
  intros _. apply str_in_In in Hin. repeat split; auto; lia.
Qed.

Lemma validate_arguments_raises (strptime_ok : string -> bool) (args : Args) :
  validate_arguments strptime_ok args = Done tt \/
  exists msg, validate_arguments strptime_ok args = Raised (ValueError msg).
Proof.
  unfold validate_arguments.
  destruct ((level args <? 1) || (100 <? level args)); [right; eexists; reflexivity|].
  destruct (negb (str_in _ _)); [right; eexists; reflexivity|].
  destruct (negb (strptime_ok _)); [right; eexists; reflexivity|].
  left. reflexivity.
Qed.

Lemma handle_status (console : Console) (status : Z) :
  1 <= status <= 3 -> 0 <= handle console status <= 3.
Proof.
  unfold handle. destruct (print_error console); lia.
Qed.



(** ** Series of hits *)

Lemma total_damage_floor (defense : Z) (hits : list Z) :
  Z.of_nat (List.length hits) <= total_damage defense hits.
Proof.
  induction hits as [|damage hits IH]; cbn [total_damage fold_right List.length].
  - lia.
  - fold (total_damage defense hits). unfold spec_actualDamage. lia.
Qed.

Lemma total_damage_permutation (defense : Z) (hits hits' : list Z) :
  Permutation hits hits' -> total_damage defense hits = total_damage defense hits'.
Proof.
  induction 1 as [|damage l l' _ IH|a b l|l l' l'' _ IH1 _ IH2];
    cbn [total_damage fold_right]; try fold (total_damage defense l);
    try fold (total_damage defense l'); lia.
Qed.

Lemma hero_after_hits_eq (hits : list Z) :
  forall h,
    hero_after_hits h hits
    = Hero.mk (Hero.name h) (Hero.hero_class h) (Hero.level h)
              (Hero.hardcore_mode h) (Hero.max_hp h)
              (Hero.current_hp h - total_damage (Hero.defense h) hits)
              (Hero.attack h) (Hero.defense h) (Hero.critical_chance h).
Proof.
  induction hits as [|damage hits IH]; intros h.
  - destruct h. cbn. f_equal. lia.
  - unfold hero_after_hits in *. cbn [fold_left]. rewrite IH.
    cbn [Hero.take_damage fst Hero.name Hero.hero_class Hero.level
         Hero.hardcore_mode Hero.max_hp Hero.current_hp Hero.attack Hero.defense
         Hero.critical_chance total_damage fold_right].
    fold (total_damage (Hero.defense h) hits). unfold spec_actualDamage.
    f_equal. lia.
Qed.

Lemma enemy_after_hits_eq (hits : list Z) :
  forall e,
    enemy_after_hits e hits
    = Enemy.mk (Enemy.level e) (Enemy.hardcore_mode e) (Enemy.name e)
               (Enemy.max_hp e)
               (Enemy.current_hp e - total_damage (Enemy.defense e) hits)
               (Enemy.attack e) (Enemy.defense e).
Proof.
  induction hits as [|damage hits IH]; intros e.
  - destruct e. cbn. f_equal. lia.
  - unfold enemy_after_hits in *. cbn [fold_left]. rewrite IH.
    cbn [Enemy.take_damage fst Enemy.level Enemy.hardcore_mode Enemy.name
         Enemy.max_hp Enemy.current_hp Enemy.attack Enemy.defense
         total_damage fold_right].
    fold (total_damage (Enemy.defense e) hits). unfold spec_actualDamage.
    f_equal. lia.
Qed.

(** X12: hits add up.  After any series of [take_damage] calls a hero, and
    likewise an enemy, has lost the sum of the mitigated damages, which is at
    least one health per hit, and is otherwise unchanged; the result does
    not depend on the order of the hits. *)
Theorem X12_hits_add_up (h : Hero.t) (e : Enemy.t) (hits : list Z) :
  (hero_after_hits h hits
   = Hero.mk (Hero.name h) (Hero.hero_class h) (Hero.level h)
             (Hero.hardcore_mode h) (Hero.max_hp h)
             (Hero.current_hp h - total_damage (Hero.defense h) hits)
             (Hero.attack h) (Hero.defense h) (Hero.critical_chance h) /\
   Hero.current_hp (hero_after_hits h hits)
   <= Hero.current_hp h - Z.of_nat (List.length hits)) /\
  (enemy_after_hits e hits
   = Enemy.mk (Enemy.level e) (Enemy.hardcore_mode e) (Enemy.name e)
              (Enemy.max_hp e)
              (Enemy.current_hp e - total_damage (Enemy.defense e) hits)
              (Enemy.attack e) (Enemy.defense e) /\
   Enemy.current_hp (enemy_after_hits e hits)
   <= Enemy.current_hp e - Z.of_nat (List.length hits)) /\
  (forall hits',
      Permutation hits hits' ->
      hero_after_hits h hits = hero_after_hits h hits' /\
      enemy_after_hits e hits = enemy_after_hits e hits').
Proof.
  split; [|split].
  - split; [apply hero_after_hits_eq|].
    rewrite hero_after_hits_eq. cbn [Hero.current_hp].
    pose proof (total_damage_floor (Hero.defense h) hits). lia.
  - split; [apply enemy_after_hits_eq|].
    rewrite enemy_after_hits_eq. cbn [Enemy.current_hp].
    pose proof (total_damage_floor (Enemy.defense e) hits). lia.
  - intros hits' Hperm.
    rewrite !hero_after_hits_eq, !enemy_after_hits_eq.
    rewrite (total_damage_permutation (Hero.defense h) _ _ Hperm).
    rewrite (total_damage_permutation (Enemy.defense e) _ _ Hperm).
    split; reflexivity.
Qed.

Lemma X12_hits_add_up_witness :
  Hero.current_hp
    (hero_after_hits (Hero.mk "A" "Warrior" 1 false 160 160 27 21 0.152%float)
                     [30; 5; 12])
  = Hero.current_hp
      (hero_after_hits (Hero.mk "A" "Warrior" 1 false 160 160 27 21 0.152%float)
                       [12; 30; 5]).
Proof.
  destruct (X12_hits_add_up
              (Hero.mk "A" "Warrior" 1 false 160 160 27 21 0.152%float)
              (Enemy.mk (-1) false "Dark Dragon" 88 88 18 9) [30; 5; 12])
    as (_ & _ & Horder).
  destruct (Horder [12; 30; 5]) as [Hh _].
  - apply Permutation_sym, (Permutation_cons_app [30; 5] [] 12).
    rewrite app_nil_r. apply Permutation_refl.
  - rewrite Hh. reflexivity.
Defined.

(** ** Sessions whose battle is over *)

Lemma announce_loop_condition (s : BattleSimulator.t) :
  BattleSimulator.loop_condition (BattleSimulator.announce s)
  = BattleSimulator.loop_condition s.
Proof.
  unfold BattleSimulator.loop_condition.
  destruct (announce_frame s) as (-> & -> & -> & ->). reflexivity.
Qed.

Lemma simulate_battle_over (fuel : nat) (s : BattleSimulator.t) (rng : RandomSource) :
  BattleSimulator.loop_condition s = false ->
  BattleSimulator.simulate_battle fuel s rng
  = Done (fst (BattleSimulator.conclude (BattleSimulator.announce s)),
          snd (BattleSimulator.conclude (BattleSimulator.announce s)),
          rng).
Proof.
  intros Hover. unfold BattleSimulator.simulate_battle.
  rewrite while_loop_exit by (rewrite announce_loop_condition; exact Hover).
  cbn [bind]. destruct (BattleSimulator.conclude _). reflexivity.
Qed.

Lemma conclude_verdict (s : BattleSimulator.t) :
  fst (BattleSimulator.conclude s)
  = Hero.is_alive (BattleSimulator.hero s)
    && (BattleSimulator.turn_count s <? BattleSimulator.max_turns s).
Proof.
  unfold BattleSimulator.conclude.
  destruct (Z.leb_spec (BattleSimulator.max_turns s) (BattleSimulator.turn_count s));
    destruct (Z.ltb_spec (BattleSimulator.turn_count s) (BattleSimulator.max_turns s));
    try lia; cbn [fst].
  - now rewrite andb_false_r.
  - now rewrite andb_true_r.
Qed.

Lemma simulate_battle_over_frame
  (fuel : nat) (s : BattleSimulator.t) (rng : RandomSource) :
  BattleSimulator.loop_condition s = false ->
  exists victory s',
    BattleSimulator.simulate_battle fuel s rng = Done (victory, s', rng) /\
    BattleSimulator.hero s' = BattleSimulator.hero s /\
    BattleSimulator.enemy s' = BattleSimulator.enemy s /\
    BattleSimulator.turn_count s' = BattleSimulator.turn_count s /\
    hero_attack_count (BattleSimulator.battle_log s')
    = hero_attack_count (BattleSimulator.battle_log s) /\
    victory = Hero.is_alive (BattleSimulator.hero s)
              && (BattleSimulator.turn_count s <? BattleSimulator.max_turns s).
Proof.
  intros Hover.
  pose proof (simulate_battle_over fuel s rng Hover) as Hrun.
  destruct (simulate_battle_log_grown _ _ _ _ _ _ Hrun)
    as (new & Hlog & _ & _ & _ & Hcount & _).
  destruct (conclude_frame (BattleSimulator.announce s)) as (Hh & He & Ht & Hm).
  destruct (announce_frame s) as (Ah & Ae & At & Am).
  do 2 eexists. split; [exact Hrun|].
  rewrite Hh, He, Ht, Ah, Ae, At in *.
  repeat (split; [reflexivity|]). split.
  - rewrite Hlog, hero_attack_count_app. lia.
  - rewrite conclude_verdict, Ah, At, Am. reflexivity.
Qed.

(** X13: called on a session in which a combatant is already dead or the
    counter has reached [max_turns], [simulate_battle] plays no turn, for
    every fuel: it makes no draw, leaves hero, enemy and counter as they
    are, logs no hero attack, and returns True exactly when the hero is
    alive and the counter is below [max_turns], so an enemy that starts
    dead is a victory at turn 0. *)
Theorem X13_no_turn_when_over
  (fuel : nat) (s : BattleSimulator.t) (rng : RandomSource) :
  BattleSimulator.loop_condition s = false ->
  exists victory s',
    BattleSimulator.simulate_battle fuel s rng = Done (victory, s', rng) /\
    BattleSimulator.hero s' = BattleSimulator.hero s /\
    BattleSimulator.enemy s' = BattleSimulator.enemy s /\
    BattleSimulator.turn_count s' = BattleSimulator.turn_count s /\
    hero_attack_count (BattleSimulator.battle_log s')
    = hero_attack_count (BattleSimulator.battle_log s) /\
    victory = Hero.is_alive (BattleSimulator.hero s)
              && (BattleSimulator.turn_count s <? BattleSimulator.max_turns s).
Proof.
  apply simulate_battle_over_frame.
Qed.

Lemma X13_no_turn_when_over_witness :
  exists s',
    BattleSimulator.simulate_battle 0
      (BattleSimulator.init (Hero.mk "A" "Warrior" 1 false 160 160 27 21 0.152%float)
                            (Enemy.mk (-9) false "Vile Lich" (-8) (-8) 2 1))
      (fun _ => 0%N)
    = Done (true, s', fun _ => 0%N) /\
    BattleSimulator.turn_count s' = 0.
Proof.
  destruct (X13_no_turn_when_over 0
              (BattleSimulator.init
                 (Hero.mk "A" "Warrior" 1 false 160 160 27 21 0.152%float)
                 (Enemy.mk (-9) false "Vile Lich" (-8) (-8) 2 1))
              (fun _ => 0%N) eq_refl)
    as (victory & s' & Hrun & _ & _ & Hturn & _ & Hverdict).
  exists s'. split; [|exact Hturn].
  rewrite Hrun, Hverdict. reflexivity.
Defined.

(** X14: running [simulate_battle] again on the session it has returned
    changes nothing but the log: for every fuel and random source the
    second call makes no draw, plays no turn, leaves both combatants as
    they are and returns the same verdict. *)
Theorem X14_second_run_repeats_verdict
  (fuel fuel' : nat) (s s1 : BattleSimulator.t) (rng rng1 rng2 : RandomSource)
  (victory : bool) :
  BattleSimulator.simulate_battle fuel s rng = Done (victory, s1, rng1) ->
  exists s2,
    BattleSimulator.simulate_battle fuel' s1 rng2 = Done (victory, s2, rng2) /\
    BattleSimulator.hero s2 = BattleSimulator.hero s1 /\
    BattleSimulator.enemy s2 = BattleSimulator.enemy s1 /\
    BattleSimulator.turn_count s2 = BattleSimulator.turn_count s1.
Proof.
  intros Hrun. unfold BattleSimulator.simulate_battle in Hrun.
  apply bind_Done_inv in Hrun as ([s0 rng0] & Hloop & Hend).
  pose proof (while_loop_exit_state _ _ _ _ _ Hloop) as Hover.
  pose proof (conclude_verdict s0) as Hverdict.
  destruct (conclude_frame s0) as (Hh & He & Ht & Hm).
  destruct (BattleSimulator.conclude s0) as [v s'].
  injection Hend as <- <- _. cbn [fst snd] in *.
  assert (Hcond : BattleSimulator.loop_condition s' = false).
  { unfold BattleSimulator.loop_condition. rewrite Hh, He, Ht, Hm.
    destruct Hover as [->|[->|Hceil]]; [reflexivity| |].
    - rewrite andb_false_r. reflexivity.
    - apply Z.ltb_ge in Hceil. rewrite Hceil. apply andb_false_r. }
  destruct (simulate_battle_over_frame fuel' s' rng2 Hcond)
    as (v2 & s2 & Hrun2 & Hh2 & He2 & Ht2 & _ & Hv2).
  exists s2. split; [|auto].
  rewrite Hrun2. replace v2 with v; [reflexivity|].
  rewrite Hv2, Hverdict, Hh, Ht, Hm. reflexivity.
Qed.

Lemma X14_second_run_repeats_verdict_witness :
  exists s1 s2,
    overkill_battle = Done (true, s1) /\
    BattleSimulator.simulate_battle 0 s1 (fun _ => 7%N)
    = Done (true, s2, fun _ => 7%N).
Proof.
  set (h := Hero.mk "A" "Warrior" 1 false 160 160 27 21 0.152%float).
  set (e := Enemy.mk (-1) true "Dark Dragon" 132 132 27 9).
  run_battle (BattleSimulator.simulate_battle 50 (BattleSimulator.init h e)
                                              (fun _ => 0%N)) Hrun.
  destruct (X14_second_run_repeats_verdict 50 0 _ _ _ _ (fun _ => 7%N) _ Hrun)
    as (s2 & Hagain & _).
  match type of Hrun with
  | _ = Done (_, ?final, _) => exists final, s2
  end.
  split; [vm_compute; reflexivity|exact Hagain].
Defined.

(** ** Enemies of any level *)

Lemma scale_stat_truncates (base : Z) (hardcore : bool) :
  -12100 <= base <= 12200 ->
  (x <- int_mul_float base (if hardcore then 1.5%float else 1.0%float) ;;
   int_of_float x)
  = Done (if hardcore then Z.quot (base * 3) 2 else base).
Proof.
  intros Hb.
  set (run := fun (hc : bool) (b : Z) =>
                x <- int_mul_float b (if hc then 1.5%float else 1.0%float) ;;
                int_of_float x).
  assert (H : outcome_eqb (run hardcore base)
                          (if hardcore then Z.quot (base * 3) 2 else base) = true).
  { revert base Hb. destruct hardcore.
    - apply (forallb_zrange (fun b => outcome_eqb (run true b) (Z.quot (b * 3) 2))).
      vm_compute. reflexivity.
    - apply (forallb_zrange (fun b => outcome_eqb (run false b) b)).
      vm_compute. reflexivity. }
  change (run hardcore base = Done (if hardcore then Z.quot (base * 3) 2 else base)).
  destruct (run hardcore base); simpl in H; try discriminate.
  apply Z.eqb_eq in H. now subst.
Qed.

(** X15: [Enemy.__init__] checks nothing: for every hero level of
    -1000..1000 it returns an enemy of level hero level + offset whose
    maxHealth and attack are 100 + level x 12 and 20 + level x 2, in
    hardcore multiplied by 1.5 and rounded towards zero (not down, which
    differs for negative values), and whose defense is 10 + level.  From
    enemy level -9 down maxHealth is not positive, so the enemy is dead
    before the battle starts. *)
Theorem X15_enemy_of_any_level
  (hero_level : Z) (hardcore : bool) (rng : RandomSource) :
  -1000 <= hero_level <= 1000 ->
  exists e,
    Enemy.init hero_level hardcore rng = Done (e, skip_draws 3 rng) /\
    Enemy.level e = hero_level + fst (random_randint (-2) 3 rng) /\
    Enemy.max_hp e
    = (if hardcore then Z.quot ((100 + Enemy.level e * 12) * 3) 2
       else 100 + Enemy.level e * 12) /\
    Enemy.current_hp e = Enemy.max_hp e /\
    Enemy.attack e
    = (if hardcore then Z.quot ((20 + Enemy.level e * 2) * 3) 2
       else 20 + Enemy.level e * 2) /\
    Enemy.defense e = 10 + Enemy.level e /\
    (Enemy.level e <= -9 -> Enemy.is_alive e = false).
Proof.
  intros Hl.
  pose proof (randint_range (-2) 3 rng ltac:(lia)) as Hoff.
  unfold Enemy.init.
  change (skip_draws 3 rng)
    with (snd (Enemy._generate_name (snd (random_randint (-2) 3 rng)))).
  destruct (random_randint (-2) 3 rng) as [offset rng1]. cbn [fst snd] in *.
  destruct (Enemy._generate_name rng1) as [nm rng2]. cbn [fst snd]. cbv zeta.
  destruct (bind_Done_inv _ _ _
              (scale_stat_truncates (100 + (hero_level + offset) * 12) hardcore
                                    ltac:(lia))) as (hp_f & -> & Hhp).
  destruct (bind_Done_inv _ _ _
              (scale_stat_truncates (20 + (hero_level + offset) * 2) hardcore
                                    ltac:(lia))) as (atk_f & -> & Hatk).
  cbn [bind]. rewrite Hhp. cbn [bind]. rewrite Hatk. cbn [bind].
  eexists. split; [reflexivity|].
  cbn [Enemy.level Enemy.max_hp Enemy.current_hp Enemy.attack Enemy.defense].
  repeat (split; [reflexivity|]).
  intros Hlow. unfold Enemy.is_alive. cbn [Enemy.current_hp].
  apply Z.ltb_ge.
  destruct hardcore; [|lia].
  pose proof (Z.quot_opp_l ((100 + (hero_level + offset) * 12) * 3) 2 ltac:(lia)).
  pose proof (Z.quot_pos (- ((100 + (hero_level + offset) * 12) * 3)) 2
                         ltac:(lia) ltac:(lia)).
  lia.
Qed.

Lemma X15_enemy_of_any_level_witness :
  exists e,
    Enemy.init (-7) true (fun _ => 0%N) = Done (e, skip_draws 3 (fun _ => 0%N)) /\
    Enemy.max_hp e = -12 /\
    Enemy.is_alive e = false.
Proof.
  destruct (X15_enemy_of_any_level (-7) true (fun _ => 0%N) ltac:(lia))
    as (e & Hinit & Hlevel & Hhp & _ & _ & _ & Hdead).
  exists e. split; [exact Hinit|].
  assert (Hl : Enemy.level e = -9) by (rewrite Hlevel; reflexivity).
  split; [rewrite Hhp, Hl; reflexivity|apply Hdead; lia].
Defined.
